(** * GarageDoorServer: the motion controller of [garageDoorHandler.ts]

    A shallow embedding of the class [GarageDoorHandler] and of the part of
    the Node event loop it relies on ([setTimeout], [clearTimeout] and the
    promises awaited on them), with the properties of the controller stated
    and proved over it.

    Numbers.  The source computes with JavaScript numbers; heights, rates and
    durations are embedded as rationals ([Q]) compared with [==], the exact
    arithmetic the floating-point code approximates.  [null] and [NaN]
    amounts, both falsy in JavaScript, are [None].

    Time.  The clock counts milliseconds, as the argument of [setTimeout]
    does.  A timer fires exactly when it is due; timers that are due at the
    same instant fire in the order of their creation.

    Constants.  The methods take the module-level constants as a record
    [c : Constants]; [source] holds the values the source gives them.  What
    is proved for every [c] holds of the source, and where the value of a
    constant matters the statement says so.

    Observation.  Besides the fields of the handler a [World] keeps the
    [trace] of what the handler has done: pin writes, console lines and
    assignments to the state fields.  No code reads it.

    Callers.  The console listener, the request handler and the routes of
    [app.ts], the suites of [garageDoorHandler.test.ts] and the text helpers
    of [base.ts] are embedded after the controller, with what this needs of
    Express (routes are tried in the order they were added) and of the
    JavaScript library ([parseFloat], [decodeURIComponent] and the printing
    of numbers are parameters). *)

From Stdlib Require Import QArith Qminmax Qabs Lqa Lia Bool List String Arith.
From Stdlib Require Import Qround Ascii ZArith.
Import ListNotations.

Local Open Scope Q_scope.

(** ** Constants *)

(** The module-level constants of [garageDoorHandler.ts].  The two derived
    rates are definitions below, as they are in the source. *)
Record Constants : Type := {
  DOOR_OPEN_TIME_SEC : Q;
  DOOR_CLOSE_TIME_SEC : Q;
  DOOR_OPENER_SIGNAL_HOLD_TIME_SEC : Q;
  MIN_TIME_BETWEEN_BUTTON_PRESSES_SEC : Q;
  DOOR_HEIGHT_FEET : Q;
  DOOR_MAX_AUTO_BOUNCE_BACK_HEIGHT_FEET : Q;
  DOOR_AUTO_BOUNCE_BACK_DELAY_SEC : Q;
  OPENER_LIGHT_BUTTON_PRESS_TIME_SEC : Q;
  GPIO_PIN_NUMBER : Z
}.

(** The values the source gives them. *)
Definition source : Constants := {|
  DOOR_OPEN_TIME_SEC := 1675 # 100;
  DOOR_CLOSE_TIME_SEC := 1575 # 100;
  DOOR_OPENER_SIGNAL_HOLD_TIME_SEC := 25 # 100;
  MIN_TIME_BETWEEN_BUTTON_PRESSES_SEC := 75 # 100;
  DOOR_HEIGHT_FEET := 70833 # 10000;
  DOOR_MAX_AUTO_BOUNCE_BACK_HEIGHT_FEET := - (1);
  DOOR_AUTO_BOUNCE_BACK_DELAY_SEC := 5 # 10;
  OPENER_LIGHT_BUTTON_PRESS_TIME_SEC := 1 # 10;
  GPIO_PIN_NUMBER := 7
|}.

Definition DOOR_OPEN_RATE_FEET_PER_SEC (c : Constants) : Q :=
  DOOR_HEIGHT_FEET c / DOOR_OPEN_TIME_SEC c.

Definition DOOR_CLOSE_RATE_FEET_PER_SEC (c : Constants) : Q :=
  DOOR_HEIGHT_FEET c / DOOR_CLOSE_TIME_SEC c.

(** ** Data *)

(** [type movement = 'up' | 'down' | 'to'] *)
Inductive movement : Type := up | down | to.

Definition movement_eqb (a b : movement) : bool :=
  match a, b with
  | up, up | down, down | to, to => true
  | _, _ => false
  end.

(** Handles returned by [setTimeout]. *)
Definition TimerId : Type := nat.

(** The fields of a [GarageDoorHandler] instance. *)
Record Handler : Type := {
  currentDoorHeight : Q;
  lastDirectionWasUp : bool;
  doorIsMoving : bool;
  timeouts : list TimerId
}.

(** The field initialisers of the class: what [new GarageDoorHandler()]
    holds. *)
Definition newHandler : Handler := {|
  currentDoorHeight := 0;
  lastDirectionWasUp := false;
  doorIsMoving := false;
  timeouts := []
|}.

(** JavaScript's [<], [<=] and [>] on numbers. *)
Definition Qlt_bool (x y : Q) : bool := negb (Qle_bool y x).
Definition Qgt_bool (x y : Q) : bool := Qlt_bool y x.

(** [n || d] for a [number | null] on the left: [null], [NaN] and [0] are
    falsy. *)
Definition orDefault (n : option Q) (d : Q) : Q :=
  match n with
  | Some q => if Qeq_bool q 0 then d else q
  | None => d
  end.

(** An argument of [this.log(...)]. *)
Inductive LogArg : Type :=
| Str (s : string)
| Num (q : Q)
| NumOrNull (n : option Q)
| Mov (m : movement)
| Int (z : Z).

(** What the handler does that the outside can see, in the order it does
    it: a write of the GPIO pin, a line on the console, an assignment to one
    of the three state fields. *)
Inductive Event : Type :=
| EvPin (value : bool)
| EvLog (args : list LogArg)
| EvHeight (h : Q)
| EvMoving (b : bool)
| EvDirectionUp (b : bool).

(** ** The pure part of the controller *)

Section Pure.
Variable c : Constants.

(** [correctHeightBounds] *)
Definition correctHeightBounds (height : Q) : Q :=
  Qmax 0 (Qmin (DOOR_HEIGHT_FEET c) height).

(** [calculateTimeToReachHeight], a method that reads
    [this.currentDoorHeight]. *)
Definition calculateTimeToReachHeight (this : Handler)
    (height : Q) (shouldGoUp isStoppingEarly : bool) : Q :=
  let distance := Qabs (height - currentDoorHeight this) in
  let rate := if shouldGoUp then DOOR_OPEN_RATE_FEET_PER_SEC c
              else DOOR_CLOSE_RATE_FEET_PER_SEC c in
  (distance / rate)
  - (if isStoppingEarly then DOOR_OPENER_SIGNAL_HOLD_TIME_SEC c else 0).

(** The test [willBounceBack] of [handleHeightRequest]. *)
Definition willBounceBack (this : Handler) : bool :=
  Qle_bool (currentDoorHeight this) (DOOR_MAX_AUTO_BOUNCE_BACK_HEIGHT_FEET c)
  && Qgt_bool (currentDoorHeight this) 0
  && negb (lastDirectionWasUp this).

(** The test [doDoublePress] of [conditionallyDoDoublePress]. *)
Definition doDoublePress (this : Handler) (shouldGoUp : bool) : bool :=
  Qgt_bool (currentDoorHeight this) 0
  && Qlt_bool (currentDoorHeight this) (DOOR_HEIGHT_FEET c)
  && Bool.eqb shouldGoUp (lastDirectionWasUp this).

(** The test [isStoppingEarly] of [moveToFinalHeight]. *)
Definition isStoppingEarly (height : Q) : bool :=
  Qlt_bool height (DOOR_HEIGHT_FEET c) && Qgt_bool height 0.

(** The signed [rate] of [conditionallyDoDoublePress]. *)
Definition doublePressRate (shouldGoUp : bool) : Q :=
  if shouldGoUp then DOOR_OPEN_RATE_FEET_PER_SEC c
  else DOOR_CLOSE_RATE_FEET_PER_SEC c * - (1).

End Pure.

(** ** Asynchronous code

    A [Task] is a piece of JavaScript that runs to its end without giving
    up control: it reads and writes the handler's fields, does something the
    outside sees, arms or clears a timer.  An [Async A] is code that may
    [await]: it is given what to do with its result, the continuation the
    promise it returns resolves into. *)

Inductive Task : Type :=
| Done
| Read (k : Handler -> Task)
| Write (this : Handler) (k : Task)
| Emit (e : Event) (k : Task)
| SetTimeout (callback : Task) (ms : Q) (k : TimerId -> Task)
| ClearTimeout (id : TimerId) (k : Task).

Definition Async (A : Type) : Type := (A -> Task) -> Task.

Definition ret {A : Type} (a : A) : Async A := fun k => k a.

Definition bind {A B : Type} (m : Async A) (f : A -> Async B) : Async B :=
  fun k => m (fun a => f a k).

Declare Scope async_scope.
Delimit Scope async_scope with async.
Notation "x <- m ;; f" := (bind m (fun x => f))
  (at level 61, m at next level, right associativity) : async_scope.
Notation "m ;; f" := (bind m (fun _ => f))
  (at level 61, right associativity) : async_scope.
Local Open Scope async_scope.

(** [this], read at the point of the program where it stands. *)
Definition getThis : Async Handler := fun k => Read k.

Definition emit (e : Event) : Async unit := fun k => Emit e (k tt).

(** [this.log(...)]: the line, without the time stamp and class name that
    [Base.log] puts in front of it. *)
Definition log (args : list LogArg) : Async unit := emit (EvLog args).

(** A field of [this] assigned, the others kept. *)
Definition withCurrentDoorHeight (h : Q) (this : Handler) : Handler :=
  let '(Build_Handler _ u m l) := this in Build_Handler h u m l.

Definition withLastDirectionWasUp (b : bool) (this : Handler) : Handler :=
  let '(Build_Handler h _ m l) := this in Build_Handler h b m l.

Definition withDoorIsMoving (b : bool) (this : Handler) : Handler :=
  let '(Build_Handler h u _ l) := this in Build_Handler h u b l.

Definition withTimeouts (l : list TimerId) (this : Handler) : Handler :=
  let '(Build_Handler h u m _) := this in Build_Handler h u m l.

(** [this.currentDoorHeight = h] *)
Definition setCurrentDoorHeight (h : Q) : Async unit := fun k =>
  Read (fun this => Write (withCurrentDoorHeight h this)
                          (Emit (EvHeight h) (k tt))).

(** [this.doorIsMoving = b] *)
Definition setDoorIsMoving (b : bool) : Async unit := fun k =>
  Read (fun this => Write (withDoorIsMoving b this)
                          (Emit (EvMoving b) (k tt))).

(** [this.lastDirectionWasUp = b] *)
Definition setLastDirectionWasUp (b : bool) : Async unit := fun k =>
  Read (fun this => Write (withLastDirectionWasUp b this)
                          (Emit (EvDirectionUp b) (k tt))).

(** [this.timeouts = l] *)
Definition setTimeouts (l : list TimerId) : Async unit := fun k =>
  Read (fun this => Write (withTimeouts l this) (k tt)).

(** [this.timeouts.push(id)] and [this.timeouts.pop()] *)
Definition pushTimeout (id : TimerId) : Async unit :=
  this <- getThis ;; setTimeouts (timeouts this ++ [id]).

Definition popTimeout : Async unit :=
  this <- getThis ;; setTimeouts (removelast (timeouts this)).

(** [setTimeout(callback, ms)], which returns the timer's handle. *)
Definition setTimeout (callback : Task) (ms : Q) : Async TimerId :=
  fun k => SetTimeout callback ms k.

Definition clearTimeout (id : TimerId) : Async unit :=
  fun k => ClearTimeout id (k tt).

(** [for (const x of l) { body(x) }] *)
Fixpoint forOf {A : Type} (l : list A) (body : A -> Async unit) : Async unit :=
  match l with
  | [] => ret tt
  | x :: l' => body x ;; forOf l' body
  end.

(** [async () => { ... }] passed as a callback: nobody awaits its end. *)
Definition async {A : Type} (body : Async A) : Task := body (fun _ => Done).

(** [new Promise(resolve => { ... })], awaited or returned from an async
    function: the executor runs at once, and the awaiting code resumes when
    [resolve()] is called. *)
Definition newPromise {A : Type} (executor : Task -> Async A) : Async unit :=
  fun k => executor (k tt) (fun _ => Done).

(** [resolve()] as the last statement of a callback. *)
Definition resolving {A : Type} (resolve : Task) : Async A := fun _ => resolve.

(** ** The methods of [GarageDoorHandler] *)

Section Controller.
Variable c : Constants.

Local Open Scope string_scope.

(** [writePin]: the write of the pin is recorded whether or not the process
    runs on a Pi (off a Pi the source leaves the pin alone and simulates). *)
Definition writePin (value : bool) : Async unit := emit (EvPin value).

Definition turnPinOn : Async unit := writePin true.

Definition turnPinOff : Async unit := writePin false.

(** [pressButton]: pin off, hold, pin on and the two flags, then the minimum
    spacing before the promise resolves.  Neither timer is kept in
    [this.timeouts]. *)
Definition pressButton : Async unit :=
  log [Str "Pressing button..."] ;;
  turnPinOff ;;
  log [Str "Turned pin"; Int (GPIO_PIN_NUMBER c); Str "off"] ;;
  newPromise (fun resolve =>
    setTimeout
      (async
         (turnPinOn ;;
          log [Str "Turned pin"; Int (GPIO_PIN_NUMBER c); Str "on"] ;;
          this <- getThis ;;
          setDoorIsMoving (negb (doorIsMoving this)) ;;
          this <- getThis ;;
          (if doorIsMoving this
           then setLastDirectionWasUp (negb (lastDirectionWasUp this))
           else ret tt) ;;
          setTimeout resolve (MIN_TIME_BETWEEN_BUTTON_PRESSES_SEC c * 1000)))
      (DOOR_OPENER_SIGNAL_HOLD_TIME_SEC c * 1000)).

(** [stop] *)
Definition stop : Async unit :=
  let dashes := "------------------------------" in
  log [Str dashes] ;;
  log [Str "Emergency stopping door"] ;;
  this <- getThis ;;
  forOf (timeouts this) clearTimeout ;;
  setTimeouts [] ;;
  this <- getThis ;;
  (if doorIsMoving this
   then pressButton ;; log [Str "Pressed button to emergency stop door"]
   else ret tt) ;;
  log [Str "Emergency stopped door"] ;;
  log [Str dashes].

(** [turnOnLight] *)
Definition turnOnLight : Async unit :=
  turnPinOff ;;
  newPromise (fun resolve =>
    setTimeout (async (turnPinOn ;; resolving (A := unit) resolve))
               (OPENER_LIGHT_BUTTON_PRESS_TIME_SEC c * 1000)).

(** [calculateTimeToReachHeight] and the timer of [moveToFinalHeight], whose
    callback stops the door if it has to, commits the height and resolves
    the request. *)
Definition moveToFinalHeight (height : Q) (shouldGoUp : bool) (resolve : Task)
    : Async unit :=
  let isStoppingEarly := isStoppingEarly c height in
  this <- getThis ;;
  let timeToReachHeightSec :=
    calculateTimeToReachHeight c this height shouldGoUp isStoppingEarly in
  log [Str "moving over"; Num timeToReachHeightSec; Str "sec"] ;;
  id <- setTimeout
          (async
             (popTimeout ;;
              (if isStoppingEarly
               then pressButton ;; log [Str "Pressed button to stop door"]
               else ret tt) ;;
              setCurrentDoorHeight height ;;
              this <- getThis ;;
              log [Str "currentHeight after handling:";
                   Num (currentDoorHeight this)] ;;
              log [Str "----------------------------"] ;;
              resolving (A := unit) resolve))
          (timeToReachHeightSec * 1000) ;;
  pushTimeout id.

(** [waitForDoorToGetAboveBounceBackHeight] *)
Definition waitForDoorToGetAboveBounceBackHeight : Async unit :=
  this <- getThis ;;
  let timeToReachBottom :=
    currentDoorHeight this / DOOR_CLOSE_RATE_FEET_PER_SEC c in
  let timeToStartGoingUp :=
    timeToReachBottom + DOOR_AUTO_BOUNCE_BACK_DELAY_SEC c in
  let heightAboveBounceBackHeight :=
    DOOR_MAX_AUTO_BOUNCE_BACK_HEIGHT_FEET c * (11 # 10) in
  let timeToGetAboveBounceBackHeightSec :=
    timeToStartGoingUp
    + (heightAboveBounceBackHeight / DOOR_OPEN_RATE_FEET_PER_SEC c) in
  newPromise (fun resolve =>
    id <- setTimeout
            (async
               (popTimeout ;;
                setCurrentDoorHeight heightAboveBounceBackHeight ;;
                resolving (A := unit) resolve))
            (timeToGetAboveBounceBackHeightSec * 1000) ;;
    pushTimeout id).

(** [handleBounceBack] *)
Definition handleBounceBack (shouldGoUp : bool) : Async unit :=
  pressButton ;;
  log [Str "Pressed button to make door go down to bounce back up"] ;;
  waitForDoorToGetAboveBounceBackHeight ;;
  if shouldGoUp then ret tt
  else
    pressButton ;;
    log [Str "Pressed button to stop door just above bounceback height"] ;;
    this <- getThis ;;
    setCurrentDoorHeight
      (currentDoorHeight this
       + DOOR_OPEN_RATE_FEET_PER_SEC c * DOOR_AUTO_BOUNCE_BACK_DELAY_SEC c) ;;
    pressButton ;;
    log [Str "Pressed button to make door go down"].

(** [conditionallyDoDoublePress] *)
Definition conditionallyDoDoublePress (shouldGoUp : bool) : Async unit :=
  this <- getThis ;;
  if negb (doDoublePress c this shouldGoUp) then ret tt
  else
    pressButton ;;
    log [Str "Pressed button to toggle opener state"] ;;
    let rate := doublePressRate c shouldGoUp in
    this <- getThis ;;
    setCurrentDoorHeight
      (currentDoorHeight this + MIN_TIME_BETWEEN_BUTTON_PRESSES_SEC c * rate) ;;
    pressButton ;;
    log [Str "Pressed button to stop door"] ;;
    this <- getThis ;;
    setCurrentDoorHeight
      (currentDoorHeight this + DOOR_OPENER_SIGNAL_HOLD_TIME_SEC c * rate) ;;
    this <- getThis ;;
    log [Str "currentHeight after double press:"; Num (currentDoorHeight this)].

(** [handleHeightRequest] *)
Definition handleHeightRequest (movement : movement) (height : Q)
    : Async unit :=
  let height := correctHeightBounds c height in
  this <- getThis ;;
  let shouldGoUp := Qgt_bool height (currentDoorHeight this) in
  let movement := if shouldGoUp then up else down in
  log [Str "Moving"; Mov movement; Str "to"; Num height; Str "feet"] ;;
  this <- getThis ;;
  (if willBounceBack c this
   then handleBounceBack shouldGoUp
   else
     conditionallyDoDoublePress shouldGoUp ;;
     pressButton ;;
     log [Str "Pressed button to go"; Mov movement]) ;;
  newPromise (fun resolve => moveToFinalHeight height shouldGoUp resolve).

(** [handleDistanceRequest] *)
Definition handleDistanceRequest (movement : movement) (distance : option Q)
    : Async unit :=
  let calculatedDistance :=
    orDefault distance (DOOR_HEIGHT_FEET c)
    * (if movement_eqb movement up then 1 else - (1)) in
  this <- getThis ;;
  handleHeightRequest to (currentDoorHeight this + calculatedDistance).

(** [handleRequest] *)
Definition handleRequest (movement : movement) (number : option Q)
    : Async unit :=
  log [Str "----- handling request -----"] ;;
  this <- getThis ;;
  log [Str "currentHeight:"; Num (currentDoorHeight this)] ;;
  log [Str "movement:"; Mov movement; Str "|"; Str "number:"; NumOrNull number] ;;
  if movement_eqb movement to
  then handleHeightRequest movement (orDefault number 0)
  else handleDistanceRequest movement number.

End Controller.

(** ** The event loop *)

(** A timer that has been armed and has neither fired nor been cleared. *)
Record Timer : Type := {
  timerId : TimerId;
  due : Q;
  callback : Task
}.

(** One handler object and the event loop it lives in: the clock in
    milliseconds, the next timer handle, the armed timers and what the
    handler has done so far, latest first. *)
Record World : Type := {
  handler : Handler;
  clock : Q;
  nextTimerId : TimerId;
  pending : list Timer;
  trace : list Event
}.

(** The world right after [new GarageDoorHandler()]. *)
Definition newWorld : World := {|
  handler := newHandler;
  clock := 0;
  nextTimerId := O;
  pending := [];
  trace := []
|}.

(** Node arms a timer for one millisecond when the delay is below one, above
    [2^31 - 1] or not a number. *)
Definition timerDelay (ms : Q) : Q :=
  if Qle_bool 1 ms && Qle_bool ms 2147483647 then ms else 1.

(** The world with one of its parts replaced. *)
Definition withHandler (this : Handler) (w : World) : World :=
  let '(Build_World _ t n p tr) := w in Build_World this t n p tr.

Definition withClock (now : Q) (w : World) : World :=
  let '(Build_World h _ n p tr) := w in Build_World h now n p tr.

Definition withPending (p : list Timer) (w : World) : World :=
  let '(Build_World h t n _ tr) := w in Build_World h t n p tr.

(** The event [e] happens. *)
Definition recorded (e : Event) (w : World) : World :=
  let '(Build_World h t n p tr) := w in Build_World h t n p (e :: tr).

(** The next timer handle is taken. *)
Definition handleTaken (w : World) : World :=
  let '(Build_World h t n p tr) := w in Build_World h t (S n) p tr.

(** [setTimeout(cb, ms)]: a new timer is armed. *)
Definition armed (cb : Task) (ms : Q) (w : World) : World :=
  let '(Build_World h t n p tr) := w in
  Build_World h t (S n)
    (p ++ [{| timerId := n; due := t + timerDelay ms; callback := cb |}]) tr.

Definition otherThan (id : TimerId) (t : Timer) : bool :=
  negb (Nat.eqb (timerId t) id).

(** [clearTimeout(id)]: the timer, if it is still armed, is dropped. *)
Definition disarmed (id : TimerId) (w : World) : World :=
  let '(Build_World h t n p tr) := w in
  Build_World h t n (filter (otherThan id) p) tr.

(** A task runs to its end on the world it is started in. *)
Fixpoint exec (t : Task) (w : World) : World :=
  match t with
  | Done => w
  | Read k => exec (k (handler w)) w
  | Write this k => exec k (withHandler this w)
  | Emit e k => exec k (recorded e w)
  | SetTimeout cb ms k => exec (k (nextTimerId w)) (armed cb ms w)
  | ClearTimeout id k => exec k (disarmed id w)
  end.

(** The armed timer that fires next: the earliest due, the oldest of those. *)
Fixpoint earliest (t : Timer) (rest : list Timer) : Timer :=
  match rest with
  | [] => t
  | t' :: rest' => earliest (if Qlt_bool (due t') (due t) then t' else t) rest'
  end.

(** The timer [t] fires: the clock reaches its due time, it leaves the armed
    timers and its callback runs. *)
Definition fire (t : Timer) (w : World) : World :=
  exec (callback t) (withClock (due t) (disarmed (timerId t) w)).

(** The loop runs until no timer is armed; [None] when [fuel] firings were
    not enough. *)
Fixpoint drain (fuel : nat) (w : World) : option World :=
  match pending w with
  | [] => Some w
  | t :: rest =>
      match fuel with
      | O => None
      | S fuel' => drain fuel' (fire (earliest t rest) w)
      end
  end.

(** The loop runs up to the instant [until]: the timers due by then fire, and
    the clock is left at [until]. *)
Fixpoint advance (fuel : nat) (until : Q) (w : World) : option World :=
  match pending w with
  | [] => Some (withClock until w)
  | t :: rest =>
      let t0 := earliest t rest in
      if Qle_bool (due t0) until then
        match fuel with
        | O => None
        | S fuel' => advance fuel' until (fire t0 w)
        end
      else Some (withClock until w)
  end.

(** A call from outside (the HTTP layer, a test): the method runs up to its
    first suspension; nothing is chained on the promise it returns. *)
Definition call (m : Async unit) (w : World) : World := exec (async m) w.

(** A call whose promise is awaited before anything else is asked of the
    handler: the loop runs until the handler is idle.  No method arms more
    than ten timers, one after the other. *)
Definition await (m : Async unit) (w : World) : option World :=
  drain 16 (call m w).

(** What the handler has done, in the order it did it. *)
Definition history (w : World) : list Event := rev (trace w).

(** A pulse is seen on the pin as its driving low. *)
Definition isPulse (e : Event) : bool :=
  match e with EvPin false => true | _ => false end.

Definition pulses (w : World) : nat := List.length (filter isPulse (trace w)).

Definition height (w : World) : Q := currentDoorHeight (handler w).

(** ** One request at a time

    When nothing else is going on, a method of the handler arms its timers
    one after the other: the code that follows a [setTimeout] only files the
    handle, and the next timer is armed by the callback of the one before.
    For such tasks the event loop does what reading the code from top to
    bottom suggests, and [inOrder] computes it without the loop. *)

Fixpoint inOrder (t : Task) (w : World) : World :=
  match t with
  | Done => w
  | Read k => inOrder (k (handler w)) w
  | Write this k => inOrder k (withHandler this w)
  | Emit e k => inOrder k (recorded e w)
  | SetTimeout cb ms k =>
      inOrder cb
        (withClock (clock w + timerDelay ms)
                   (inOrder (k (nextTimerId w)) (handleTaken w)))
  | ClearTimeout _ k => inOrder k w
  end.

(** Code that touches no timer. *)
Inductive Plain : Task -> Prop :=
| Plain_Done : Plain Done
| Plain_Read k : (forall this, Plain (k this)) -> Plain (Read k)
| Plain_Write this k : Plain k -> Plain (Write this k)
| Plain_Emit e k : Plain k -> Plain (Emit e k).

(** [Sequential n t]: the task [t] arms at most [n] timers, each from the
    callback of the one before. *)
Inductive Sequential : nat -> Task -> Prop :=
| Seq_Done n : Sequential n Done
| Seq_Read n k : (forall this, Sequential n (k this)) -> Sequential n (Read k)
| Seq_Write n this k : Sequential n k -> Sequential n (Write this k)
| Seq_Emit n e k : Sequential n k -> Sequential n (Emit e k)
| Seq_Clear n id k : Sequential n k -> Sequential n (ClearTimeout id k)
| Seq_SetTimeout n cb ms k :
    Sequential n cb -> (forall id, Plain (k id)) ->
    Sequential (S n) (SetTimeout cb ms k).

(** ** Runs and what is seen of them *)

(** The flags after a pulse. *)
Definition toggled (this : Handler) : Handler :=
  let '(Build_Handler h u m l) := this in
  Build_Handler h (if m then u else negb u) (negb m) l.

(** The handler is idle: no timer is armed. *)
Definition idle (w : World) : Prop := pending w = [].

(** What is seen of the door during a run: a pulse on the pin, a new value of
    the tracked height. *)
Inductive Step : Type :=
| Pulsed
| Moved (h : Q).

Fixpoint steps (l : list Event) : list Step :=
  match l with
  | [] => []
  | EvPin false :: l' => Pulsed :: steps l'
  | EvHeight h :: l' => Moved h :: steps l'
  | _ :: l' => steps l'
  end.

(** A console line that starts with the text [s]. *)
Definition startsWith (s : string) (e : Event) : bool :=
  match e with
  | EvLog (Str s' :: _) => String.eqb s s'
  | _ => false
  end.

(** The console has a line that starts with [s]. *)
Definition said (s : string) (l : list Event) : bool :=
  existsb (startsWith s) l.

(** What happens after the first console line that starts with [s]. *)
Fixpoint eventsAfter (s : string) (l : list Event) : list Event :=
  match l with
  | [] => []
  | e :: l' => if startsWith s e then l' else eventsAfter s l'
  end.

(** The heights tracked in a run, each with the direction the opener was
    latched in when it was written: [up] at the start, and from then on the
    last value given to [lastDirectionWasUp]. *)
Fixpoint heightsLatched (up : bool) (l : list Event) : list (bool * Q) :=
  match l with
  | [] => []
  | EvDirectionUp b :: l' => heightsLatched b l'
  | EvHeight h :: l' => (up, h) :: heightsLatched up l'
  | _ :: l' => heightsLatched up l'
  end.

(** A request as [handleRequest] receives it. *)
Definition Request : Type := (movement * option Q)%type.

Section Runs.
Variable c : Constants.

Local Open Scope string_scope.

(** What a pulse adds to the trace, latest first. *)
Definition pressEvents (this : Handler) : list Event :=
  (if doorIsMoving this then []
   else [EvDirectionUp (negb (lastDirectionWasUp this))])
  ++ [EvMoving (negb (doorIsMoving this));
      EvLog [Str "Turned pin"; Int (GPIO_PIN_NUMBER c); Str "on"];
      EvPin true;
      EvLog [Str "Turned pin"; Int (GPIO_PIN_NUMBER c); Str "off"];
      EvPin false;
      EvLog [Str "Pressing button..."]].

(** The world when the promise of [pressButton] resolves. *)
Definition pressed (w : World) : World :=
  let '(Build_World this t n p tr) := w in
  Build_World (toggled this)
    (t + timerDelay (DOOR_OPENER_SIGNAL_HOLD_TIME_SEC c * 1000)
     + timerDelay (MIN_TIME_BETWEEN_BUTTON_PRESSES_SEC c * 1000))
    (S (S n)) p (pressEvents this ++ tr).

(** The tracked height is within the travel of the door. *)
Definition inBounds (h : Q) : Prop := 0 <= h /\ h <= DOOR_HEIGHT_FEET c.

(** Every value the tracked height has been given is within the travel of the
    door. *)
Definition heightsInBounds (l : list Event) : Prop :=
  forall h, In (EvHeight h) l -> inBounds h.

(** The tracked height is given a value outside the travel of the door. *)
Definition outOfBounds (e : Event) : bool :=
  match e with
  | EvHeight h => Qlt_bool h 0 || Qlt_bool (DOOR_HEIGHT_FEET c) h
  | _ => false
  end.

(** The height [handleRequest] asks [handleHeightRequest] for, before it is
    brought within bounds: the argument of the call in [handleRequest] for
    ['to'], that of the call in [handleDistanceRequest] otherwise. *)
Definition requestedHeight (this : Handler) (movement : movement)
    (number : option Q) : Q :=
  if movement_eqb movement to then orDefault number 0
  else currentDoorHeight this
       + orDefault number (DOOR_HEIGHT_FEET c)
         * (if movement_eqb movement up then 1 else - (1)).

(** Requests made one after the other, each when the one before has
    resolved. *)
Fixpoint handleRequests (rs : list Request) (w : World) : option World :=
  match rs with
  | [] => Some w
  | (movement, number) :: rs' =>
      match await (handleRequest c movement number) w with
      | Some w' => handleRequests rs' w'
      | None => None
      end
  end.

(** [n] pulses, each awaited. *)
Fixpoint pressTimes (n : nat) (w : World) : option World :=
  match n with
  | O => Some w
  | S n' =>
      match await (pressButton c) w with
      | Some w' => pressTimes n' w'
      | None => None
      end
  end.

(** [rate(direction)] and [travelTime] as section 4.1 of the specification
    words them, the direction being whether the door goes up. *)
Definition rate_spec (goingUp : bool) : Q :=
  if goingUp then DOOR_OPEN_RATE_FEET_PER_SEC c
  else DOOR_CLOSE_RATE_FEET_PER_SEC c.

Definition travelTime_spec (fromHeight toHeight : Q) (goingUp : bool)
    (stoppingEarly : bool) : Q :=
  Qabs (toHeight - fromHeight) / rate_spec goingUp
  - (if stoppingEarly then DOOR_OPENER_SIGNAL_HOLD_TIME_SEC c else 0).

End Runs.

(** ['to', 3] is asked of a new handler and [stop()] is called 100 ms later,
    while the button is held for the first pulse; then the loop runs. *)
Definition stopDuringFirstPulse : option World :=
  match advance 16 100 (call (handleRequest source to (Some 3)) newWorld) with
  | Some w => drain 16 (call (stop source) w)
  | None => None
  end.

(** The same request, with [stop()] called after two seconds, while the door
    travels and the completion timer is armed. *)
Definition stopDuringTravel : option World :=
  match advance 16 2000 (call (handleRequest source to (Some 3)) newWorld) with
  | Some w => drain 16 (call (stop source) w)
  | None => None
  end.

(** The constants of the source with the bounce-back height, which the source
    leaves to be measured, at one foot; and a door half a foot up that last
    went down. *)
Definition measured : Constants := {|
  DOOR_OPEN_TIME_SEC := DOOR_OPEN_TIME_SEC source;
  DOOR_CLOSE_TIME_SEC := DOOR_CLOSE_TIME_SEC source;
  DOOR_OPENER_SIGNAL_HOLD_TIME_SEC := DOOR_OPENER_SIGNAL_HOLD_TIME_SEC source;
  MIN_TIME_BETWEEN_BUTTON_PRESSES_SEC :=
    MIN_TIME_BETWEEN_BUTTON_PRESSES_SEC source;
  DOOR_HEIGHT_FEET := DOOR_HEIGHT_FEET source;
  DOOR_MAX_AUTO_BOUNCE_BACK_HEIGHT_FEET := 1;
  DOOR_AUTO_BOUNCE_BACK_DELAY_SEC := DOOR_AUTO_BOUNCE_BACK_DELAY_SEC source;
  OPENER_LIGHT_BUTTON_PRESS_TIME_SEC :=
    OPENER_LIGHT_BUTTON_PRESS_TIME_SEC source;
  GPIO_PIN_NUMBER := GPIO_PIN_NUMBER source
|}.

Definition ajar : World :=
  withHandler {| currentDoorHeight := 1 # 2; lastDirectionWasUp := false;
                 doorIsMoving := false; timeouts := [] |} newWorld.

(** A door stopped three feet up that last went up. *)
Definition halfOpen : World :=
  withHandler {| currentDoorHeight := 3; lastDirectionWasUp := true;
                 doorIsMoving := false; timeouts := [] |} newWorld.

(** ** The rest of the repository

    The method of [GarageDoorHandler] that reports the height, the console
    and HTTP callers of [handleRequest] in [app.ts], the test suite, and the
    helpers of [base.ts] and [app.ts] that work on numbers and strings. *)

(** A piece of a template string: text, or a number to be printed ([None]
    for [NaN]), which may be infinite. *)
Inductive Part : Type :=
| Text (s : string)
| Number (n : option Q)
| InfiniteNumber (negative : bool).

Section Callers.
Variable c : Constants.

Local Open Scope string_scope.

(** [getCurrentDoorHeight]: a [switch] on [this.currentDoorHeight], whose
    cases are tried in order. *)
Definition getCurrentDoorHeight (this : Handler) : list Part :=
  if Qeq_bool (currentDoorHeight this) 0 then [Text "closed"]
  else if Qeq_bool (currentDoorHeight this) (DOOR_HEIGHT_FEET c)
       then [Text "fully open"]
       else [Text "at "; Number (Some (currentDoorHeight this)); Text " feet"].

(** The listener of [listenManual] in [app.ts]:
    [this.doorHandler.handleRequest(line as movement, null)].  The cast does
    nothing at run time, so that [handleRequest] runs with whatever was typed
    as its movement.  All the handler asks of a movement is whether it is
    ['to'], in [handleRequest], and whether it is ['up'], in
    [handleDistanceRequest], which is given [down] here for every other
    text. *)
Definition onLine (line : string) : Async unit :=
  log [Str "----- handling request -----"] ;;
  this <- getThis ;;
  log [Str "currentHeight:"; Num (currentDoorHeight this)] ;;
  log [Str "movement:"; Str line; Str "|"; Str "number:"; NumOrNull None] ;;
  if String.eqb line "to"
  then handleHeightRequest c to (orDefault None 0)
  else handleDistanceRequest c (if String.eqb line "up" then up else down)
                             None.

(** [runTest] of [garageDoorHandler.test.ts]: the request is awaited and
    [assert.equal] compares the height with the one expected. *)
Definition runTest (direction : movement) (distance : option Q)
    (expectedHeight : Q) (w : World) : option (World * bool) :=
  match await (handleRequest c direction distance) w with
  | Some w' => Some (w', Qeq_bool (height w') expectedHeight)
  | None => None
  end.

(** The tests of a suite run one after the other on the one handler of the
    file, whether or not the ones before passed. *)
Fixpoint runTests (tests : list (movement * option Q * Q)) (w : World)
    : option (World * list bool) :=
  match tests with
  | [] => Some (w, [])
  | (direction, distance, expectedHeight) :: tests' =>
      match runTest direction distance expectedHeight w with
      | Some (w', passed) =>
          match runTests tests' w' with
          | Some (w'', results) => Some (w'', passed :: results)
          | None => None
          end
      | None => None
      end
  end.

End Callers.

(** The constant and the suites of [garageDoorHandler.test.ts].  A test of
    'Random-Number Tests' asks for a height and expects it; the heights are
    drawn between [0] and [TEST_DOOR_HEIGHT_FEET]. *)
Definition TEST_DOOR_HEIGHT_FEET : Q := 75 # 10.

Definition heightTest (h : Q) : movement * option Q * Q := (to, Some h, h).

Definition randomNumberTests (heights : list Q)
    : list (movement * option Q * Q) :=
  map heightTest heights.

Definition bouncebackTests : list (movement * option Q * Q) :=
  map heightTest
      [15 # 10; 75 # 100; 25 # 100; 75 # 100; 15 # 10; 2; 15 # 10; 0;
       25 # 100].

Definition distanceTests : list (movement * option Q * Q) :=
  [ (up, None, TEST_DOOR_HEIGHT_FEET);
    (down, None, 0);
    (up, Some (TEST_DOOR_HEIGHT_FEET / 2), TEST_DOOR_HEIGHT_FEET / 2);
    (up, Some (TEST_DOOR_HEIGHT_FEET / 2), TEST_DOOR_HEIGHT_FEET);
    (down, Some 3, TEST_DOOR_HEIGHT_FEET - 3);
    (down, Some 3, TEST_DOOR_HEIGHT_FEET - 6);
    (down, Some 3, 0);
    (up, Some (TEST_DOOR_HEIGHT_FEET + 1), TEST_DOOR_HEIGHT_FEET) ].

Definition heightTests : list (movement * option Q * Q) :=
  [ (to, Some 8, TEST_DOOR_HEIGHT_FEET);
    (to, Some (- (1)), 0);
    (to, Some (TEST_DOOR_HEIGHT_FEET / 2), TEST_DOOR_HEIGHT_FEET / 2);
    (to, Some TEST_DOOR_HEIGHT_FEET, TEST_DOOR_HEIGHT_FEET);
    (to, Some (TEST_DOOR_HEIGHT_FEET - 3), TEST_DOOR_HEIGHT_FEET - 3);
    (to, Some (TEST_DOOR_HEIGHT_FEET - 6), TEST_DOOR_HEIGHT_FEET - 6);
    (to, Some 0, 0);
    (to, Some TEST_DOOR_HEIGHT_FEET, TEST_DOOR_HEIGHT_FEET) ].

(** *** [App.handleRequest] *)

Definition VALID_MOVEMENTS : list string :=
  ["up"; "down"; "to"]%string.

(** [Array.prototype.includes] on strings. *)
Definition includes (l : list string) (s : string) : bool :=
  existsb (String.eqb s) l.

(** The movement a route parameter names. *)
Definition movementNamed (s : string) : option movement :=
  if String.eqb s "up" then Some up
  else if String.eqb s "down" then Some down
  else if String.eqb s "to" then Some to
  else None.

(** [Boolean(x)] for a route parameter: [undefined] and the empty string are
    falsy. *)
Definition truthy (param : option string) : bool :=
  match param with
  | Some s => negb (String.eqb s EmptyString)
  | None => false
  end.

(** The text of a double quote. *)
Definition quote : string := String (Ascii.ascii_of_nat 34) EmptyString.

(** A number as [parseFloat] gives it: [NaN], a finite number, or an
    infinite one, which the texts [Infinity] and [1e400] are read as. *)
Inductive Parsed : Type :=
| NotANumber
| Finite (q : Q)
| Infinite (negative : bool).

(** [distance >= 0], which [NaN] is not. *)
Definition notNegative (distance : Parsed) : bool :=
  match distance with
  | NotANumber => false
  | Finite q => Qle_bool 0 q
  | Infinite negative => negb negative
  end.

(** The number in a template string. *)
Definition printed (distance : Parsed) : Part :=
  match distance with
  | NotANumber => Number None
  | Finite q => Number (Some q)
  | Infinite negative => InfiniteNumber negative
  end.

(** The amount of a request, where the number is [NaN] or finite: the
    amounts that the handler is embedded for. *)
Definition amount (distance : Parsed) : option (option Q) :=
  match distance with
  | NotANumber => Some None
  | Finite q => Some (Some q)
  | Infinite _ => None
  end.

(** What [App.handleRequest] does with a request: it passes it on to
    [doorHandler.handleRequest] and answers 200, or it logs and notifies an
    error and answers 404. *)
Inductive Answer : Type :=
| PassedOn (movement : movement) (distance : Parsed)
| NotFound (error : list Part).

Section App.
Variable parseFloat : string -> Parsed.

Local Open Scope string_scope.

(** [App.handleRequest], on the route parameters [movement] and [distance];
    the second is [undefined] on the route without a distance, and
    [parseFloat(undefined)] is [NaN]. *)
Definition App_handleRequest (movement : string) (distanceParam : option string)
    : Answer :=
  if includes VALID_MOVEMENTS movement then
    let distance := match distanceParam with
                    | Some s => parseFloat s
                    | None => NotANumber
                    end in
    if negb (truthy distanceParam) || notNegative distance
    then match movementNamed movement with
         | Some m => PassedOn m distance
         | None => NotFound [Text "invalid movement type "; Text quote;
                             Text movement; Text quote]
         end
    else NotFound [Text "invalid distance "; Text quote; printed distance;
                   Text quote]
  else NotFound [Text "invalid movement type "; Text quote; Text movement;
                 Text quote].

End App.

(** *** [base.ts] and the string helpers of [app.ts] *)

(** [s.repeat(n)] *)
Fixpoint repeatString (s : string) (n : nat) : string :=
  match n with
  | O => EmptyString
  | S n' => String.append s (repeatString s n')
  end.

(** [formatClassName]: [repeat] throws a [RangeError], here [None], on a
    negative count. *)
Definition formatClassName (className : string) : option string :=
  let CLASS_NAME_MAX_LENGTH := 17%nat in
  if (String.length className <=? CLASS_NAME_MAX_LENGTH)%nat
  then Some (String.append className
               (repeatString " " (CLASS_NAME_MAX_LENGTH
                                  - String.length className)))
  else None.

Section Base.
(** The text of a number, as [prefixed + number] makes it. *)
Variable toString : Q -> string.

(** The loop and the [return] of [prefixWithZero]; [None] when [fuel] turns
    of the loop were not enough. *)
Fixpoint prefixLoop (fuel : nat) (number radix : Q) (prefixed : string)
    : option string :=
  if Qgt_bool radix 1 && Qlt_bool number radix then
    match fuel with
    | O => None
    | S fuel' =>
        prefixLoop fuel' number (radix / 10) (String.append prefixed "0")
    end
  else Some (String.append prefixed (toString number)).

(** [prefixWithZero(number, radix = 10)].  The loop divides [radix] by ten
    as long as it is above one: [radix] turns, rounded up, are enough. *)
Definition prefixWithZero (number : Q) (radix : option Q) : option string :=
  let radix := match radix with Some r => r | None => 10 end in
  prefixLoop (Z.to_nat (Qceiling radix)) number radix EmptyString.

End Base.

(** [s.substring(start)] *)
Definition substringFrom (start : nat) (s : string) : string :=
  String.substring start (String.length s - start) s.

(** [getSourceIP] of [app.ts]; [indexOf] gives [-1], here [None], when the
    text is not there. *)
Definition getSourceIP (remoteAddress : string) : string :=
  let fIndex := String.index 0 "f:" remoteAddress in
  substringFrom (match fIndex with
                 | None => 0
                 | Some i => i + 2
                 end) remoteAddress.

(** *** The routes of [configureRoutes]

    The router of Express tries its routes in the order they were added.  A
    route is taken when its path matches and it was added for the method of
    the request; none of the handlers here calls [next], so that the first
    route taken answers the request. *)

Inductive Method : Type := GET | HEAD | POST | OtherMethod.

(** [router.get], [router.post], [router.all] *)
Inductive Verb : Type := router_get | router_post | router_all.

(** A route added with [router.get] also answers [HEAD]. *)
Definition handles (verb : Verb) (method : Method) : bool :=
  match verb, method with
  | router_all, _ => true
  | router_get, GET => true
  | router_get, HEAD => true
  | router_post, POST => true
  | _, _ => false
  end.

(** A piece of the path of a route: text, or a parameter [:name]. *)
Inductive Segment : Type :=
| Literal (s : string)
| Param (name : string).

(** The path of a route: pieces between slashes, or ['*']. *)
Inductive Pattern : Type :=
| Segments (l : list Segment)
| Anything.

(** The handlers of the routes. *)
Inductive Route : Type :=
| currentHeightRoute
| movementRoute
| stopRoute
| lightRoute
| wildcardRoute.

Definition routes : list (Verb * Pattern * Route) :=
  [ (router_get, Segments [Literal "garageDoor"], currentHeightRoute);
    (router_post, Segments [Literal "garageDoor"; Param "movement"],
     movementRoute);
    (router_post,
     Segments [Literal "garageDoor"; Param "movement"; Param "distance"],
     movementRoute);
    (router_post, Segments [Literal "garageDoor"; Literal "stop"], stopRoute);
    (router_post, Segments [Literal "garageDoor"; Literal "light"],
     lightRoute);
    (router_all, Anything, wildcardRoute) ]%string.

(** The router is made with the options of [Express.Router()]: the text of a
    route is compared without regard to case. *)
Definition lowerCase (a : ascii) : ascii :=
  let n := nat_of_ascii a in
  if ((65 <=? n) && (n <=? 90))%nat then ascii_of_nat (n + 32) else a.

Fixpoint sameIgnoringCase (a b : string) : bool :=
  match a, b with
  | EmptyString, EmptyString => true
  | String x a', String y b' =>
      Ascii.eqb (lowerCase x) (lowerCase y) && sameIgnoringCase a' b'
  | _, _ => false
  end.

(** What matching a path gives: no match, an error (the value of a parameter
    could not be decoded, which is answered with 400), or the parameters. *)
Inductive Matched : Type :=
| NoMatch
| Failed
| Params (params : list (string * string)).

Inductive Dispatched : Type :=
| Handled (route : Route) (params : list (string * string))
| BadRequest
| Unhandled.

Section Router.
(** [decodeURIComponent], with [None] when it throws; and the same for the
    whole of a path, which ['*'] captures. *)
Variable decodeURIComponent : string -> option string.
Variable decodePath : list string -> option string.

(** The path of the request is given as its pieces between slashes, so
    that a path that ends in a slash ends in an empty piece; the router, which
    is not strict, lets a path end in one slash more than the route.  A
    parameter stands for a piece that is not empty, and its value is decoded
    once the whole path has matched. *)
Fixpoint matchSegments (pattern : list Segment) (path : list string)
    : Matched :=
  match pattern, path with
  | [], [] => Params []
  | [], [EmptyString] => Params []
  | Literal s :: pattern', piece :: path' =>
      if sameIgnoringCase s piece then matchSegments pattern' path'
      else NoMatch
  | Param name :: pattern', piece :: path' =>
      if String.eqb piece EmptyString then NoMatch
      else match matchSegments pattern' path' with
           | Params params =>
               match decodeURIComponent piece with
               | Some value => Params ((name, value) :: params)
               | None => Failed
               end
           | other => other
           end
  | _, _ => NoMatch
  end.

Definition matchPattern (pattern : Pattern) (path : list string) : Matched :=
  match pattern with
  | Segments l => matchSegments l path
  | Anything =>
      match decodePath path with
      | Some value => Params [("0"%string, value)]
      | None => Failed
      end
  end.

Fixpoint dispatch (table : list (Verb * Pattern * Route)) (method : Method)
    (path : list string) : Dispatched :=
  match table with
  | [] => Unhandled
  | (verb, pattern, route) :: table' =>
      match matchPattern pattern path with
      | Params params =>
          if handles verb method then Handled route params
          else dispatch table' method path
      | Failed => BadRequest
      | NoMatch => dispatch table' method path
      end
  end.

End Router.

(** *** Requests that are stopped

    A request is made of [w] and [stop()] is called at the time [stopAt],
    with the timers that were due by then run; then the loop runs. *)
Definition requestThenStop (c : Constants) (mv : movement) (n : option Q)
    (stopAt : Q) (w : World) : option World :=
  match advance 16 stopAt (call (handleRequest c mv n) w) with
  | Some w' => drain 16 (call (stop c) w')
  | None => None
  end.

(** The constants of the source with the height of the door that the test
    file takes. *)
Definition tested : Constants := {|
  DOOR_OPEN_TIME_SEC := DOOR_OPEN_TIME_SEC source;
  DOOR_CLOSE_TIME_SEC := DOOR_CLOSE_TIME_SEC source;
  DOOR_OPENER_SIGNAL_HOLD_TIME_SEC := DOOR_OPENER_SIGNAL_HOLD_TIME_SEC source;
  MIN_TIME_BETWEEN_BUTTON_PRESSES_SEC :=
    MIN_TIME_BETWEEN_BUTTON_PRESSES_SEC source;
  DOOR_HEIGHT_FEET := TEST_DOOR_HEIGHT_FEET;
  DOOR_MAX_AUTO_BOUNCE_BACK_HEIGHT_FEET :=
    DOOR_MAX_AUTO_BOUNCE_BACK_HEIGHT_FEET source;
  DOOR_AUTO_BOUNCE_BACK_DELAY_SEC := DOOR_AUTO_BOUNCE_BACK_DELAY_SEC source;
  OPENER_LIGHT_BUTTON_PRESS_TIME_SEC :=
    OPENER_LIGHT_BUTTON_PRESS_TIME_SEC source;
  GPIO_PIN_NUMBER := GPIO_PIN_NUMBER source
|}.

(** ** The event loop on sequential tasks *)

Lemma exec_plain (t : Task) :
  Plain t ->
  forall w p, exec t (withPending p w) = withPending p (inOrder t w).
Proof.
  induction 1 as [|k _ IH|this k _ IH|e k _ IH]; intros w p; cbn [exec inOrder].
  - reflexivity.
  - rewrite <- IH. destruct w; reflexivity.
  - rewrite <- IH. destruct w; reflexivity.
  - rewrite <- IH. destruct w; reflexivity.
Qed.

Lemma inOrder_plain_pending (t : Task) :
  Plain t -> forall w, pending (inOrder t w) = pending w.
Proof.
  induction 1 as [|k _ IH|this k _ IH|e k _ IH]; intros w; cbn [inOrder].
  - reflexivity.
  - apply IH.
  - rewrite IH. destruct w; reflexivity.
  - rewrite IH. destruct w; reflexivity.
Qed.

Lemma inOrder_pending (n : nat) (t : Task) :
  Sequential n t -> forall w, pending (inOrder t w) = pending w.
Proof.
  induction 1 as [n|n k _ IH|n this k _ IH|n e k _ IH|n id k _ IH
                 |n cb ms k _ IHcb Hk];
    intros w; cbn [inOrder].
  - reflexivity.
  - apply IH.
  - rewrite IH. destruct w; reflexivity.
  - rewrite IH. destruct w; reflexivity.
  - apply IH.
  - rewrite IHcb.
    pose proof (inOrder_plain_pending _ (Hk (nextTimerId w)) (handleTaken w))
      as E.
    destruct (inOrder (k (nextTimerId w)) (handleTaken w)), w.
    exact E.
Qed.

Lemma drain_idle (fuel : nat) (w : World) :
  pending w = [] -> drain fuel w = Some w.
Proof.
  intros H. destruct fuel; cbn [drain]; rewrite H; reflexivity.
Qed.

(** The event loop runs a sequential task the way [inOrder] does. *)
Theorem drain_sequential (n : nat) (t : Task) :
  Sequential n t ->
  forall fuel w, (n <= fuel)%nat -> pending w = [] ->
  drain fuel (exec t w) = Some (inOrder t w).
Proof.
  induction 1 as [n|n k _ IH|n this k _ IH|n e k _ IH|n id k _ IH
                 |n cb ms k Hcb IHcb Hk];
    intros fuel w Hfuel Hp; cbn [exec inOrder].
  - apply drain_idle, Hp.
  - apply IH; assumption.
  - apply IH; [assumption | destruct w; exact Hp].
  - apply IH; [assumption | destruct w; exact Hp].
  - replace (disarmed id w) with w.
    + apply IH; assumption.
    + destruct w; cbn in Hp; subst; reflexivity.
  - destruct fuel as [|fuel]; [lia|].
    pose (tm := {| timerId := nextTimerId w;
                   due := clock w + timerDelay ms; callback := cb |}).
    assert (Ha : armed cb ms w = withPending [tm] (handleTaken w)).
    { destruct w; cbn in Hp; subst; reflexivity. }
    rewrite Ha, (exec_plain _ (Hk (nextTimerId w))).
    pose proof (inOrder_plain_pending _ (Hk (nextTimerId w)) (handleTaken w))
      as E.
    assert (Hp' : pending (handleTaken w) = []) by (destruct w; exact Hp).
    rewrite Hp' in E. clear Ha Hp'.
    destruct (inOrder (k (nextTimerId w)) (handleTaken w))
      as [h1 t1 n1 p1 tr1].
    cbn [pending] in E. subst p1.
    cbn [drain withPending pending earliest]. unfold fire.
    cbn [disarmed withClock filter timerId tm callback due].
    unfold otherThan. cbn [timerId tm].
    rewrite Nat.eqb_refl. cbn [negb].
    apply IHcb; [lia | reflexivity].
Qed.

Lemma Sequential_weaken (n : nat) (t : Task) :
  Sequential n t -> forall m, (n <= m)%nat -> Sequential m t.
Proof.
  induction 1 as [n|n k _ IH|n this k _ IH|n e k _ IH|n id k _ IH
                 |n cb ms k _ IHcb Hk];
    intros m Hm.
  - constructor.
  - constructor. intros this. apply IH, Hm.
  - constructor. apply IH, Hm.
  - constructor. apply IH, Hm.
  - constructor. apply IH, Hm.
  - destruct m as [|m]; [lia|].
    constructor; [apply IHcb; lia | exact Hk].
Qed.

(** Unfolds the combinators of asynchronous code down to the constructors of
    [Task]. *)
Ltac unfold_async :=
  cbv beta iota zeta delta
    [bind ret getThis emit log setCurrentDoorHeight setDoorIsMoving
     setLastDirectionWasUp setTimeouts pushTimeout popTimeout setTimeout
     clearTimeout forOf async newPromise resolving writePin turnPinOn
     turnPinOff].

(** One step towards [Sequential n t] or [Plain t]: a case on the test the
    task branches on, or the constructor of its first operation. *)
Ltac sequential_step :=
  intros; unfold_async;
  lazymatch goal with
  | |- Sequential _ ((if ?b then _ else _) _) => destruct b
  | |- Sequential _ (if ?b then _ else _) => destruct b
  | |- Plain ((if ?b then _ else _) _) => destruct b
  | |- Plain (if ?b then _ else _) => destruct b
  | |- Sequential _ _ => constructor
  | |- Plain _ => constructor
  end.

Lemma Sequential_pressButton (c : Constants) (n : nat) (k : unit -> Task) :
  Sequential n (k tt) -> Sequential (S (S n)) (pressButton c k).
Proof.
  intros Hk. unfold pressButton. repeat sequential_step; exact Hk.
Qed.

Ltac sequential :=
  repeat first [ apply Sequential_pressButton | sequential_step ].

Section Sequences.
Variable c : Constants.

Lemma Sequential_handleHeightRequest (mv : movement) (h : Q) (k : unit -> Task) :
  Sequential 0 (k tt) -> Sequential 10 (handleHeightRequest c mv h k).
Proof.
  intros Hk.
  unfold handleHeightRequest, moveToFinalHeight, handleBounceBack,
    waitForDoorToGetAboveBounceBackHeight, conditionallyDoDoublePress.
  sequential.
  all: try (apply (Sequential_weaken _ _ Hk); lia).
Qed.

Lemma Sequential_handleRequest (mv : movement) (n : option Q) :
  Sequential 10 (async (handleRequest c mv n)).
Proof.
  unfold handleRequest, handleDistanceRequest.
  repeat first [ apply Sequential_handleHeightRequest; constructor
               | sequential_step ].
Qed.

Lemma Sequential_stop : Sequential 2 (async (stop c)).
Proof.
  unfold stop. unfold_async.
  do 3 constructor. intros this.
  induction (timeouts this) as [|id l IH]; cbn [forOf].
  - sequential.
  - constructor. exact IH.
Qed.

End Sequences.

(** ** Comparisons and bounds *)

Lemma Qlt_bool_iff (x y : Q) : Qlt_bool x y = true <-> x < y.
Proof.
  unfold Qlt_bool. rewrite negb_true_iff.
  split.
  - intros H. apply Qnot_le_lt. intros Hle.
    apply Qle_bool_iff in Hle. congruence.
  - intros H. destruct (Qle_bool y x) eqn:E; [|reflexivity].
    apply Qle_bool_iff in E. lra.
Qed.

Lemma Qlt_bool_false_iff (x y : Q) : Qlt_bool x y = false <-> y <= x.
Proof.
  unfold Qlt_bool. rewrite negb_false_iff. apply Qle_bool_iff.
Qed.

Lemma Qle_bool_false_iff (x y : Q) : Qle_bool x y = false <-> y < x.
Proof.
  rewrite <- Qlt_bool_iff. unfold Qlt_bool.
  destruct (Qle_bool x y); cbn; intuition congruence.
Qed.

Lemma Qmin_choice (a b : Q) :
  (Qmin a b = b /\ b < a) \/ (Qmin a b = a /\ a <= b).
Proof.
  unfold Qmin, GenericMinMax.gmin.
  destruct (Qcompare_spec a b) as [E|E|E]; [right|right|left];
    split; try reflexivity; lra.
Qed.

Lemma Qmax_choice (a b : Q) :
  (Qmax a b = b /\ a < b) \/ (Qmax a b = a /\ b <= a).
Proof.
  unfold Qmax, GenericMinMax.gmax.
  destruct (Qcompare_spec a b) as [E|E|E]; [right|left|right];
    split; try reflexivity; lra.
Qed.

(** ** What one request does *)

Lemma inOrder_pressButton (c : Constants) (k : unit -> Task) (w : World) :
  inOrder (pressButton c k) w = inOrder (k tt) (pressed c w).
Proof.
  destruct w as [[h u m l] t n p tr].
  destruct m; reflexivity.
Qed.

(** Runs a task in order on a world given by its fields: the combinators are
    unfolded, a pulse is taken in one step, and the run splits on the tests
    the task branches on. *)
Ltac run_step :=
  first
    [ rewrite inOrder_pressButton
    | progress unfold_async
    | progress cbn [inOrder handler clock nextTimerId pending trace
           currentDoorHeight lastDirectionWasUp doorIsMoving timeouts
           pressed toggled withHandler withClock withPending recorded
           handleTaken withCurrentDoorHeight withTimeouts]
    | match goal with
      | |- context [inOrder ((if ?b then _ else _) _) _] => destruct b eqn:?
      | |- context [inOrder (if ?b then _ else _) _] => destruct b eqn:?
      end ].

Ltac run := repeat run_step.

Ltac unfold_request :=
  unfold handleRequest, handleDistanceRequest, handleHeightRequest,
    moveToFinalHeight, handleBounceBack, waitForDoorToGetAboveBounceBackHeight,
    conditionallyDoDoublePress;
  cbv zeta.

Section Requests.
Variable c : Constants.

Lemma correctHeightBounds_inBounds (h : Q) :
  0 <= DOOR_HEIGHT_FEET c -> inBounds c (correctHeightBounds c h).
Proof.
  intros HD. split.
  - apply Q.le_max_l.
  - apply Q.max_lub; [exact HD | apply Q.le_min_l].
Qed.

Lemma correctHeightBounds_idempotent (h : Q) :
  correctHeightBounds c (correctHeightBounds c h) = correctHeightBounds c h.
Proof.
  unfold correctHeightBounds.
  destruct (Qmin_choice (DOOR_HEIGHT_FEET c) h) as [[E1 H1]|[E1 H1]];
    rewrite E1;
    destruct (Qmax_choice 0 h) as [[E2 H2]|[E2 H2]];
    destruct (Qmax_choice 0 (DOOR_HEIGHT_FEET c)) as [[E3 H3]|[E3 H3]];
    destruct (Qmin_choice (DOOR_HEIGHT_FEET c) 0) as [[E4 H4]|[E4 H4]];
    destruct (Qmin_choice (DOOR_HEIGHT_FEET c) (DOOR_HEIGHT_FEET c))
      as [[E5 H5]|[E5 H5]];
    destruct (Qmax_choice 0 0) as [[E6 H6]|[E6 H6]];
    try lra;
    rewrite ?E2, ?E3, ?E1, ?E4, ?E5, ?E2, ?E3, ?E6; try reflexivity.
Qed.

Lemma correctHeightBounds_within (h : Q) :
  inBounds c h -> correctHeightBounds c h == h.
Proof.
  intros [H0 H1]. unfold correctHeightBounds.
  rewrite Q.min_r by exact H1. apply Q.max_r, H0.
Qed.

Lemma correctHeightBounds_above (h : Q) :
  0 <= DOOR_HEIGHT_FEET c -> DOOR_HEIGHT_FEET c <= h ->
  correctHeightBounds c h == DOOR_HEIGHT_FEET c.
Proof.
  intros HD H. unfold correctHeightBounds.
  rewrite Q.min_l by exact H. apply Q.max_r, HD.
Qed.

Lemma correctHeightBounds_below (h : Q) :
  h <= 0 -> correctHeightBounds c h == 0.
Proof.
  intros H. unfold correctHeightBounds.
  apply Q.max_l. apply Qle_trans with h; [apply Q.le_min_r | exact H].
Qed.

Lemma await_inOrder (n : nat) (m : Async unit) (w : World) :
  Sequential n (async m) -> (n <= 16)%nat -> idle w ->
  await m w = Some (inOrder (async m) w).
Proof.
  intros Hs Hn Hp. unfold await, call.
  apply (drain_sequential n); assumption.
Qed.

Lemma await_pressButton (w : World) :
  idle w -> await (pressButton c) w = Some (pressed c w).
Proof.
  intros Hw.
  rewrite (await_inOrder 2); [ | | lia | exact Hw].
  - unfold async. rewrite inOrder_pressButton. reflexivity.
  - unfold async. apply Sequential_pressButton. constructor.
Qed.

Lemma idle_pressed (w : World) : idle w -> idle (pressed c w).
Proof. destruct w; exact (fun H => H). Qed.

Lemma pulses_pressed (w : World) : pulses (pressed c w) = S (pulses w).
Proof.
  destruct w as [[h u m l] t i p tr]. unfold pulses, pressed, pressEvents.
  cbn [trace doorIsMoving lastDirectionWasUp].
  destruct m; reflexivity.
Qed.

Lemma pressTimes_two (w : World) :
  idle w ->
  pressTimes c 2 w = Some (pressed c (pressed c w)).
Proof.
  intros Hw. cbn [pressTimes].
  rewrite (await_pressButton w Hw).
  rewrite (await_pressButton _ (idle_pressed w Hw)). reflexivity.
Qed.

Lemma pressTimes_add (n m : nat) (w : World) :
  pressTimes c (n + m) w
  = match pressTimes c n w with
    | Some w' => pressTimes c m w'
    | None => None
    end.
Proof.
  revert w. induction n as [|n IH]; intros w; cbn [pressTimes Nat.add].
  - reflexivity.
  - destruct (await (pressButton c) w); [apply IH | reflexivity].
Qed.

Lemma pressTimes_even (n : nat) (w : World) :
  idle w ->
  exists w', pressTimes c (2 * n) w = Some w' /\ idle w'
             /\ doorIsMoving (handler w') = doorIsMoving (handler w).
Proof.
  revert w. induction n as [|n IH]; intros w Hw.
  - exists w. repeat split. exact Hw.
  - replace (2 * S n)%nat with (2 + 2 * n)%nat by lia.
    rewrite pressTimes_add, (pressTimes_two w Hw).
    destruct (IH (pressed c (pressed c w))) as (w' & E & Hi & Hm).
    { apply idle_pressed, idle_pressed, Hw. }
    exists w'. split; [exact E|]. split; [exact Hi|].
    rewrite Hm. destruct w as [[h u m l] t i p tr]. cbn.
    apply negb_involutive.
Qed.

Lemma await_handleRequest (mv : movement) (n : option Q) (w : World) :
  idle w ->
  await (handleRequest c mv n) w
  = Some (inOrder (async (handleRequest c mv n)) w).
Proof.
  intros Hw. apply (await_inOrder 10); [ | lia | exact Hw].
  apply Sequential_handleRequest.
Qed.

Lemma idle_handleRequest (mv : movement) (n : option Q) (w : World) :
  idle w -> idle (inOrder (async (handleRequest c mv n)) w).
Proof.
  intros Hw. unfold idle.
  rewrite (inOrder_pending 10); [exact Hw | apply Sequential_handleRequest].
Qed.

Lemma height_handleHeightRequest (mv : movement) (h : Q) (w : World) :
  height (inOrder (handleHeightRequest c mv h (fun _ => Done)) w)
  = correctHeightBounds c h.
Proof.
  destruct w as [[h0 u m l] t n p tr].
  unfold_request. unfold height. run; reflexivity.
Qed.

Lemma height_handleRequest (mv : movement) (n : option Q) (w : World) :
  height (inOrder (async (handleRequest c mv n)) w)
  = correctHeightBounds c (requestedHeight c (handler w) mv n).
Proof.
  destruct w as [[h0 u m l] t i p tr].
  unfold handleRequest, handleDistanceRequest, requestedHeight.
  destruct mv; unfold_async; cbn [inOrder recorded handler movement_eqb];
    apply height_handleHeightRequest.
Qed.

Lemma pulses_handleRequest (mv : movement) (n : option Q) (w : World) :
  (pulses w < pulses (inOrder (async (handleRequest c mv n)) w))%nat.
Proof.
  destruct w as [[h0 u m l] t i p tr].
  unfold_request. unfold pulses.
  destruct mv, m; cbn [movement_eqb]; run; unfold pressEvents;
    cbn [app doorIsMoving lastDirectionWasUp negb filter isPulse
         Datatypes.length trace];
    lia.
Qed.

Lemma orDefault_zero (q : Q) : orDefault (Some q) 0 == q.
Proof.
  unfold orDefault. destruct (Qeq_bool q 0) eqn:E; [|reflexivity].
  apply Qeq_bool_iff in E. symmetry. exact E.
Qed.

Lemma correctHeightBounds_wd (x y : Q) :
  x == y -> correctHeightBounds c x == correctHeightBounds c y.
Proof. intros E. unfold correctHeightBounds. rewrite E. reflexivity. Qed.

Lemma willBounceBack_iff (this : Handler) :
  willBounceBack c this = true
  <-> currentDoorHeight this <= DOOR_MAX_AUTO_BOUNCE_BACK_HEIGHT_FEET c
      /\ 0 < currentDoorHeight this
      /\ lastDirectionWasUp this = false.
Proof.
  unfold willBounceBack, Qgt_bool.
  rewrite !andb_true_iff, Qle_bool_iff, Qlt_bool_iff, negb_true_iff.
  tauto.
Qed.

Lemma willBounceBack_never (this : Handler) :
  DOOR_MAX_AUTO_BOUNCE_BACK_HEIGHT_FEET c <= 0 ->
  willBounceBack c this = false.
Proof.
  intros H. destruct (willBounceBack c this) eqn:E; [|reflexivity].
  apply willBounceBack_iff in E. lra.
Qed.

Lemma doDoublePress_iff (this : Handler) (shouldGoUp : bool) :
  doDoublePress c this shouldGoUp = true
  <-> 0 < currentDoorHeight this
      /\ currentDoorHeight this < DOOR_HEIGHT_FEET c
      /\ shouldGoUp = lastDirectionWasUp this.
Proof.
  unfold doDoublePress, Qgt_bool.
  rewrite !andb_true_iff, !Qlt_bool_iff, eqb_true_iff.
  tauto.
Qed.

Lemma handleRequests_app (rs rs' : list Request) (w : World) :
  handleRequests c (rs ++ rs') w
  = match handleRequests c rs w with
    | Some w' => handleRequests c rs' w'
    | None => None
    end.
Proof.
  revert w. induction rs as [|[mv n] rs IH]; intros w; cbn [handleRequests app].
  - reflexivity.
  - destruct (await (handleRequest c mv n) w); [apply IH | reflexivity].
Qed.

(** Whatever is asked and in whatever order, each request resolves, and it
    leaves the handler idle with the tracked height within bounds. *)
Lemma handleRequests_inBounds (rs : list Request) (w : World) :
  0 <= DOOR_HEIGHT_FEET c -> idle w -> inBounds c (height w) ->
  exists w', handleRequests c rs w = Some w' /\ idle w'
             /\ inBounds c (height w').
Proof.
  intros HD. revert w.
  induction rs as [|[mv n] rs IH]; intros w Hw Hb; cbn [handleRequests].
  - exists w. auto.
  - rewrite (await_handleRequest mv n w Hw).
    apply IH.
    + apply idle_handleRequest, Hw.
    + rewrite height_handleRequest.
      apply correctHeightBounds_inBounds, HD.
Qed.

(** [stop()] on an idle handler: the loop over [this.timeouts] clears timers
    that are no longer armed. *)
Lemma inOrder_clearTimeouts (l : list TimerId) (k : unit -> Task) (w : World) :
  inOrder (forOf l clearTimeout k) w = inOrder (k tt) w.
Proof.
  revert k. induction l as [|id l IH]; intros k; cbn [forOf].
  - reflexivity.
  - unfold bind at 1. unfold clearTimeout at 1. cbn [inOrder]. apply IH.
Qed.

(** X1.  [stop()] on an idle handler resolves with [this.timeouts] empty and
    the tracked height as it was.  It issues one pulse when the handler holds
    the door to be moving, and none otherwise. *)
Lemma stop_when_idle (w : World) :
  idle w ->
  exists w',
    await (stop c) w = Some w'
    /\ timeouts (handler w') = []
    /\ height w' = height w
    /\ pulses w' = (if doorIsMoving (handler w) then S (pulses w)
                    else pulses w).
Proof.
  intros Hw.
  rewrite (await_inOrder 2 (stop c) w (Sequential_stop c)); [|lia|exact Hw].
  exists (inOrder (async (stop c)) w). split; [reflexivity|].
  remember (inOrder (async (stop c)) w) as w' eqn:E. revert E.
  destruct w as [[h0 u m l] t i p tr].
  unfold stop, async. cbv zeta. unfold bind at 1 2 3. unfold log at 1 2.
  unfold emit at 1 2. unfold getThis at 1.
  cbn [inOrder recorded handler timeouts].
  unfold bind at 1. rewrite inOrder_clearTimeouts.
  destruct m; run; intros ->; unfold pulses, height, pressEvents;
    cbn [app doorIsMoving lastDirectionWasUp negb filter isPulse
         Datatypes.length trace handler timeouts currentDoorHeight];
    repeat split.
Qed.

(** ** Properties of the controller *)

(** C1.  Requests made one after the other from an idle handler whose height
    is within bounds all resolve, and the tracked height when the last one has
    resolved is its target brought within bounds: [correctHeightBounds h] for
    ['to', h], [DOOR_HEIGHT_FEET] for ['up'] with no distance and [0] for
    ['down'] with no distance.  This holds on the bounce-back path too. *)
Theorem last_request_decides (rs : list Request) (mv : movement)
    (n : option Q) (w : World) :
  0 <= DOOR_HEIGHT_FEET c -> idle w -> inBounds c (height w) ->
  exists w1 w2,
    handleRequests c rs w = Some w1
    /\ handleRequests c (rs ++ [(mv, n)]) w = Some w2
    /\ height w2
       = correctHeightBounds c (requestedHeight c (handler w1) mv n)
    /\ (forall h, mv = to -> n = Some h ->
        height w2 == correctHeightBounds c h)
    /\ (mv = up -> n = None -> height w2 == DOOR_HEIGHT_FEET c)
    /\ (mv = down -> n = None -> height w2 == 0).
Proof.
  intros HD Hw Hb.
  destruct (handleRequests_inBounds rs w HD Hw Hb)
    as (w1 & E1 & Hw1 & [Hb0 Hb1]).
  exists w1, (inOrder (async (handleRequest c mv n)) w1).
  split; [exact E1|].
  split.
  { rewrite handleRequests_app, E1. cbn [handleRequests].
    rewrite (await_handleRequest mv n w1 Hw1). reflexivity. }
  rewrite height_handleRequest. split; [reflexivity|].
  unfold requestedHeight. repeat split.
  - intros h -> ->. cbn [movement_eqb].
    apply correctHeightBounds_wd, orDefault_zero.
  - intros -> ->. cbn [movement_eqb orDefault].
    apply correctHeightBounds_above; [exact HD|].
    fold (height w1). lra.
  - intros -> ->. cbn [movement_eqb orDefault].
    apply correctHeightBounds_below.
    fold (height w1). lra.
Qed.

(** C2, as amended.  The tracked height is within [0, DOOR_HEIGHT_FEET] in a
    new handler and whenever a request has resolved: requests made one after
    the other from an idle handler whose height is within bounds all resolve
    and leave it within bounds. *)
Theorem resolved_height_inBounds (rs : list Request) (w : World) :
  0 <= DOOR_HEIGHT_FEET c -> idle w -> inBounds c (height w) ->
  inBounds c (height newWorld)
  /\ exists w', handleRequests c rs w = Some w' /\ inBounds c (height w').
Proof.
  intros HD Hw Hb. split.
  - split; [apply Qle_refl | exact HD].
  - destruct (handleRequests_inBounds rs w HD Hw Hb) as (w' & E & _ & Hb').
    exists w'. split; assumption.
Qed.

(** C3, as amended.  A ['to', h] request with [h] the current height, made of
    an idle handler whose height is within bounds, resolves with the tracked
    height unchanged; it is not a no-op: at least one pulse is issued. *)
Theorem same_height_request (w : World) :
  idle w -> inBounds c (height w) ->
  exists w',
    await (handleRequest c to (Some (height w))) w = Some w'
    /\ height w' == height w
    /\ (pulses w < pulses w')%nat.
Proof.
  intros Hw Hb. rewrite (await_handleRequest _ _ w Hw).
  eexists. split; [reflexivity|]. split.
  - rewrite height_handleRequest. unfold requestedHeight. cbn [movement_eqb].
    rewrite (correctHeightBounds_wd _ _ (orDefault_zero _)).
    apply correctHeightBounds_within, Hb.
  - apply pulses_handleRequest.
Qed.

(** The double-pulse path.  With a bounce-back height that is not positive,
    as in the source, a request made of an idle handler takes it (the console
    says so) exactly when the height is strictly between [0] and
    [DOOR_HEIGHT_FEET] and the direction wanted is the last one latched.  On
    that path two pulses come before the primary one; the tracked height is
    advanced by [MIN_TIME_BETWEEN_BUTTON_PRESSES_SEC] times the signed rate
    of the direction wanted between them, and by
    [DOOR_OPENER_SIGNAL_HOLD_TIME_SEC] times that rate after the second.  Off
    that path the primary pulse is the first. *)
Theorem double_press_path (mv : movement) (n : option Q) (w : World) :
  DOOR_MAX_AUTO_BOUNCE_BACK_HEIGHT_FEET c <= 0 ->
  idle w -> trace w = [] ->
  let target := correctHeightBounds c (requestedHeight c (handler w) mv n) in
  let shouldGoUp := Qgt_bool target (height w) in
  let doubles :=
    0 < height w /\ height w < DOOR_HEIGHT_FEET c
    /\ shouldGoUp = lastDirectionWasUp (handler w) in
  let rate := if shouldGoUp then DOOR_OPEN_RATE_FEET_PER_SEC c
              else DOOR_CLOSE_RATE_FEET_PER_SEC c * - (1) in
  let h1 := height w + MIN_TIME_BETWEEN_BUTTON_PRESSES_SEC c * rate in
  let h2 := h1 + DOOR_OPENER_SIGNAL_HOLD_TIME_SEC c * rate in
  let rest :=
    Pulsed :: (if isStoppingEarly c target then [Pulsed] else [])
           ++ [Moved target] in
  exists w',
    await (handleRequest c mv n) w = Some w'
    /\ (said "Pressed button to toggle opener state" (history w') = true
        <-> doubles)
    /\ (doubles ->
        steps (history w') = Pulsed :: Moved h1 :: Pulsed :: Moved h2 :: rest)
    /\ (~ doubles -> steps (history w') = rest).
Proof.
  intros Hthr Hw Htr target shouldGoUp doubles rate h1 h2 rest.
  rewrite (await_handleRequest mv n w Hw). eexists. split; [reflexivity|].
  subst doubles. unfold height in *.
  rewrite <- (doDoublePress_iff (handler w) shouldGoUp).
  subst rest h2 h1 rate shouldGoUp target. unfold height.
  destruct w as [[h0 u m l] t i p tr]. cbn [trace] in Htr. subst tr.
  cbn [handler currentDoorHeight].
  unfold_request.
  unfold pressEvents, requestedHeight, doublePressRate, isStoppingEarly.
  pose proof willBounceBack_never as Hnever.
  destruct mv, m; cbn [movement_eqb currentDoorHeight]; run.
  all: try match goal with
           | H : willBounceBack c ?x = true |- _ =>
               rewrite (Hnever x Hthr) in H; discriminate H
           end.
  all: cbn [app doorIsMoving lastDirectionWasUp negb].
  all: repeat match goal with
              | |- context [said ?s ?l] =>
                  let b := eval vm_compute in (said s l) in
                  change (said s l) with b
              end.
  all: repeat match goal with
              | H : negb ?b = _ |- _ =>
                  apply (f_equal negb) in H;
                  rewrite negb_involutive in H; cbn [negb] in H; rewrite H
              end.
  all: split; [split; intros H; first [reflexivity | discriminate H]|].
  all: split; intros H;
    first [reflexivity | discriminate H | exfalso; apply H; reflexivity].
Qed.

(** C5.  The double-pulse correction tracks the door the wrong way.  On a
    handler at rest, a request on the double-pulse path (the height strictly
    between [0] and [DOOR_HEIGHT_FEET], the direction wanted the last one
    latched) first presses the button, which latches the opposite direction
    and sets the door moving that way, and then writes the tracked height.
    That first write is made with the opener latched against the direction
    wanted, and it adds [MIN_TIME_BETWEEN_BUTTON_PRESSES_SEC] times the
    signed rate of the direction wanted: the tracked height moves upwards in
    a request upwards and downwards in a request downwards, while the door
    moves the other way.  The correction asked for, by the rate of the new
    direction (the comment in the source says "movement in opposite the
    desired direction"), lies on the other side of the height before. *)
Theorem double_press_tracks_against_latch (mv : movement) (n : option Q)
    (w : World) :
  DOOR_MAX_AUTO_BOUNCE_BACK_HEIGHT_FEET c <= 0 ->
  idle w -> trace w = [] -> doorIsMoving (handler w) = false ->
  0 < MIN_TIME_BETWEEN_BUTTON_PRESSES_SEC c ->
  0 < DOOR_OPEN_RATE_FEET_PER_SEC c -> 0 < DOOR_CLOSE_RATE_FEET_PER_SEC c ->
  let target := correctHeightBounds c (requestedHeight c (handler w) mv n) in
  let shouldGoUp := Qgt_bool target (height w) in
  let h1 := height w
            + MIN_TIME_BETWEEN_BUTTON_PRESSES_SEC c
              * doublePressRate c shouldGoUp in
  let asked := height w
               + MIN_TIME_BETWEEN_BUTTON_PRESSES_SEC c
                 * doublePressRate c (negb shouldGoUp) in
  0 < height w -> height w < DOOR_HEIGHT_FEET c ->
  shouldGoUp = lastDirectionWasUp (handler w) ->
  exists w',
    await (handleRequest c mv n) w = Some w'
    /\ hd_error (heightsLatched (lastDirectionWasUp (handler w)) (history w'))
       = Some (negb shouldGoUp, h1)
    /\ (if shouldGoUp then asked < height w /\ height w < h1
        else h1 < height w /\ height w < asked).
Proof.
  intros Hthr Hw Htr Hm Hmin Hopen Hclose target shouldGoUp h1 asked
         H0 H1 Hdir.
  assert (Hd : doDoublePress c (handler w) shouldGoUp = true).
  { apply doDoublePress_iff. auto. }
  assert (Hb : willBounceBack c (handler w) = false).
  { apply willBounceBack_never. exact Hthr. }
  rewrite (await_handleRequest mv n w Hw). eexists. split; [reflexivity|].
  split.
  - subst asked h1 shouldGoUp target. unfold height in *.
    destruct w as [[h0 u m l] t i p tr]. cbn [trace] in Htr. subst tr.
    cbn [handler currentDoorHeight doorIsMoving lastDirectionWasUp] in *.
    subst m.
    unfold_request.
    unfold pressEvents, requestedHeight in *.
    destruct mv; cbn [movement_eqb currentDoorHeight] in *; run.
    all: try congruence.
    all: try match goal with
             | H : negb (doDoublePress _ _ _) = true |- _ =>
                 rewrite Hd in H; discriminate H
             end.
    all: unfold history;
      cbn [trace rev app heightsLatched hd_error doorIsMoving
           lastDirectionWasUp negb].
    all: rewrite Hdir; reflexivity.
  - subst asked h1. unfold doublePressRate.
    assert (Hup : 0 < MIN_TIME_BETWEEN_BUTTON_PRESSES_SEC c
                      * DOOR_OPEN_RATE_FEET_PER_SEC c)
      by (apply Qmult_lt_0_compat; assumption).
    assert (Hdown : 0 < MIN_TIME_BETWEEN_BUTTON_PRESSES_SEC c
                        * DOOR_CLOSE_RATE_FEET_PER_SEC c)
      by (apply Qmult_lt_0_compat; assumption).
    destruct shouldGoUp; cbn [negb];
      setoid_replace (MIN_TIME_BETWEEN_BUTTON_PRESSES_SEC c
                      * (DOOR_CLOSE_RATE_FEET_PER_SEC c * - (1)))
        with (- (MIN_TIME_BETWEEN_BUTTON_PRESSES_SEC c
                 * DOOR_CLOSE_RATE_FEET_PER_SEC c)) by ring;
      lra.
Qed.


(** C8.  For every height [h], [correctHeightBounds h] lies between [0] and
    [DOOR_HEIGHT_FEET], it is [max 0 (min DOOR_HEIGHT_FEET h)], and bringing
    within bounds twice is bringing within bounds once. *)
Theorem correctHeightBounds_clamps (h : Q) :
  0 <= DOOR_HEIGHT_FEET c ->
  (0 <= correctHeightBounds c h
   /\ correctHeightBounds c h <= DOOR_HEIGHT_FEET c)
  /\ correctHeightBounds c h == Qmax 0 (Qmin (DOOR_HEIGHT_FEET c) h)
  /\ correctHeightBounds c (correctHeightBounds c h) = correctHeightBounds c h.
Proof.
  intros HD. split; [|split].
  - apply correctHeightBounds_inBounds, HD.
  - reflexivity.
  - apply correctHeightBounds_idempotent.
Qed.

(** C9.  Every call of [pressButton], whatever else is going on, arms one
    timer for the hold time and leaves the fields alone until it fires; when
    it fires, [doorIsMoving] is negated, and [lastDirectionWasUp] is flipped
    exactly when [doorIsMoving] went from false to true ([toggled]).  Awaited
    on an idle handler, a pulse does that to the flags and leaves the height
    alone; after an even number of pulses [doorIsMoving] is what it was. *)
Theorem pressButton_toggles :
  (forall (k : unit -> Task) (w : World),
     exists tm,
       pending (exec (pressButton c k) w) = pending w ++ [tm]
       /\ handler (exec (pressButton c k) w) = handler w
       /\ forall w', handler (exec (callback tm) w') = toggled (handler w'))
  /\ (forall w, idle w ->
      exists w',
        await (pressButton c) w = Some w'
        /\ doorIsMoving (handler w') = negb (doorIsMoving (handler w))
        /\ (lastDirectionWasUp (handler w')
            = negb (lastDirectionWasUp (handler w))
            <-> doorIsMoving (handler w) = false
                /\ doorIsMoving (handler w') = true)
        /\ height w' = height w
        /\ pulses w' = S (pulses w))
  /\ (forall w n, idle w ->
      exists w',
        pressTimes c (2 * n) w = Some w'
        /\ doorIsMoving (handler w') = doorIsMoving (handler w)).
Proof.
  split; [|split].
  - intros k [this t n p tr]. eexists.
    split; [reflexivity|]. split; [reflexivity|].
    intros [[h u m l] t' n' p' tr']. destruct m; reflexivity.
  - intros w Hw.
    exists (pressed c w). split; [apply await_pressButton, Hw|].
    split; [|split; [|split]].
    + destruct w as [[h u m l] t i p tr]. reflexivity.
    + destruct w as [[h u m l] t i p tr]. cbn.
      destruct m, u; cbn; intuition congruence.
    + destruct w as [[h u m l] t i p tr]. reflexivity.
    + apply pulses_pressed.
  - intros w n Hw. destruct (pressTimes_even n w Hw) as (w' & E & _ & Hm).
    exists w'. split; assumption.
Qed.

(** C10.  In [handleRequest] an amount of zero is an absent amount:
    [handleDistanceRequest] does with a zero distance what it does with none,
    so that on an idle handler whose height is within bounds ['up', 0] ends
    at [DOOR_HEIGHT_FEET] and ['down', 0] at [0]; and ['to'] with no amount
    ends at [0]. *)
Theorem zero_amount_is_absent (q : Q) (w : World) :
  q == 0 -> 0 <= DOOR_HEIGHT_FEET c -> idle w -> inBounds c (height w) ->
  (forall mv, handleDistanceRequest c mv (Some q)
              = handleDistanceRequest c mv None)
  /\ (exists w', await (handleRequest c up (Some q)) w = Some w'
                 /\ height w' == DOOR_HEIGHT_FEET c)
  /\ (exists w', await (handleRequest c down (Some q)) w = Some w'
                 /\ height w' == 0)
  /\ (exists w', await (handleRequest c to None) w = Some w'
                 /\ height w' == 0).
Proof.
  intros Hq HD Hw [Hb0 Hb1].
  assert (E : Qeq_bool q 0 = true) by (apply Qeq_bool_iff, Hq).
  split; [|split; [|split]].
  - intros mv. unfold handleDistanceRequest, orDefault. rewrite E. reflexivity.
  - rewrite (await_handleRequest _ _ w Hw). eexists. split; [reflexivity|].
    rewrite height_handleRequest. unfold requestedHeight, orDefault.
    rewrite E. cbn [movement_eqb].
    apply correctHeightBounds_above; [exact HD|]. fold (height w). lra.
  - rewrite (await_handleRequest _ _ w Hw). eexists. split; [reflexivity|].
    rewrite height_handleRequest. unfold requestedHeight, orDefault.
    rewrite E. cbn [movement_eqb].
    apply correctHeightBounds_below. fold (height w). lra.
  - rewrite (await_handleRequest _ _ w Hw). eexists. split; [reflexivity|].
    rewrite height_handleRequest. unfold requestedHeight, orDefault.
    cbn [movement_eqb].
    apply correctHeightBounds_below. lra.
Qed.

End Requests.

(** ** The constants of the source *)

Lemma source_height_nonneg : 0 <= DOOR_HEIGHT_FEET source.
Proof. vm_compute. discriminate. Qed.

Lemma newWorld_inBounds : inBounds source (height newWorld).
Proof. split; vm_compute; discriminate. Qed.

Lemma halfOpen_inBounds : inBounds source (height halfOpen).
Proof. split; vm_compute; discriminate. Qed.

Lemma source_never_bounces :
  DOOR_MAX_AUTO_BOUNCE_BACK_HEIGHT_FEET source <= 0.
Proof. vm_compute. discriminate. Qed.

(** C7.  [calculateTimeToReachHeight] is the travel time of the
    specification: the distance to the target over the rate of the direction,
    less [DOOR_OPENER_SIGNAL_HOLD_TIME_SEC] exactly when the door is stopped
    early; the rate is the opening rate upwards and the closing rate
    downwards, and the two differ. *)
Theorem travelTime_matches (this : Handler) (height : Q)
    (shouldGoUp stoppingEarly : bool) :
  let from := currentDoorHeight this in
  let t :=
    calculateTimeToReachHeight source this height shouldGoUp stoppingEarly in
  let unhindered := Qabs (height - from) / rate_spec source shouldGoUp in
  t = travelTime_spec source from height shouldGoUp stoppingEarly
  /\ (stoppingEarly = true
      <-> t == unhindered - DOOR_OPENER_SIGNAL_HOLD_TIME_SEC source)
  /\ (stoppingEarly = false <-> t == unhindered)
  /\ rate_spec source true = DOOR_OPEN_RATE_FEET_PER_SEC source
  /\ rate_spec source false = DOOR_CLOSE_RATE_FEET_PER_SEC source
  /\ ~ DOOR_OPEN_RATE_FEET_PER_SEC source
       == DOOR_CLOSE_RATE_FEET_PER_SEC source.
Proof.
  intros from t unhindered.
  split; [reflexivity|].
  assert (Ht : t == unhindered
                    - (if stoppingEarly
                       then DOOR_OPENER_SIGNAL_HOLD_TIME_SEC source else 0))
    by reflexivity.
  clearbody t unhindered.
  change (DOOR_OPENER_SIGNAL_HOLD_TIME_SEC source) with (25 # 100) in *.
  split; [|split; [|split; [|split]]].
  - destruct stoppingEarly; split; intros H; try reflexivity;
      try discriminate H; lra.
  - destruct stoppingEarly; split; intros H; try reflexivity;
      try discriminate H; lra.
  - reflexivity.
  - reflexivity.
  - vm_compute. discriminate.
Qed.

(** C2, as the specification words it, fails.  A new handler is asked
    ['to', 7] and then ['up'] with no distance: the second request takes the
    double-pulse path, which adds to a tracked height of seven feet what the
    door would travel in [MIN_TIME_BETWEEN_BUTTON_PRESSES_SEC] and leaves it
    above [DOOR_HEIGHT_FEET] until the request resolves. *)
Lemma overshoot_counterexample :
  exists w',
    handleRequests source [(to, Some 7); (up, None)] newWorld = Some w'
    /\ ~ heightsInBounds source (history w').
Proof.
  eexists. split; [vm_compute; reflexivity|].
  intros H.
  match type of H with
  | heightsInBounds _ (history ?w) =>
      assert (E : existsb (outOfBounds source) (history w) = true)
        by (vm_compute; reflexivity)
  end.
  apply existsb_exists in E. destruct E as (e & Hin & He).
  destruct e as [| |h| |]; try discriminate He.
  destruct (H h Hin) as [H0 H1].
  unfold outOfBounds in He. apply orb_true_iff in He.
  destruct He as [He|He]; apply Qlt_bool_iff in He; lra.
Qed.

(** C3, as the specification words it, fails.  A new handler, whose height is
    [0], is asked ['to', 0]: one pulse is issued, and when the request has
    resolved the door is held to be moving and to have last gone up. *)
Lemma noop_counterexample :
  exists w',
    await (handleRequest source to (Some (height newWorld))) newWorld
    = Some w'
    /\ pulses w' = S (pulses newWorld)
    /\ doorIsMoving (handler w') <> doorIsMoving (handler newWorld)
    /\ lastDirectionWasUp (handler w')
       <> lastDirectionWasUp (handler newWorld).
Proof.
  eexists. split; [vm_compute; reflexivity|].
  repeat split; discriminate.
Qed.

(** C4 fails on the code.  ['to', 3] is asked of a new handler and [stop()]
    is called while the button is held for the first pulse: [this.timeouts]
    is empty and the door is not yet held to be moving, so [stop()] clears
    nothing and issues no pulse; the request goes on, arms its completion
    timer after the stop, issues its second pulse and sets the tracked height
    to three feet. *)
Theorem stop_does_not_halt_request :
  exists w',
    stopDuringFirstPulse = Some w'
    /\ steps (eventsAfter "Emergency stopped door" (history w'))
       = [Pulsed; Moved 3]
    /\ height w' == 3
    /\ pulses w' = 2%nat.
Proof.
  eexists. split; [vm_compute; reflexivity|].
  repeat split.
Qed.

(** Once the completion timer is armed, [stop()] does what is expected of it:
    the timer is cleared, one pulse halts the door, and nothing happens
    afterwards.  (The tracked height stays what it was before the request.) *)
Lemma stop_during_travel_halts :
  exists w',
    stopDuringTravel = Some w'
    /\ steps (eventsAfter "Emergency stopping door" (history w')) = [Pulsed]
    /\ steps (eventsAfter "Emergency stopped door" (history w')) = []
    /\ pending w' = []
    /\ height w' == 0.
Proof.
  eexists. split; [vm_compute; reflexivity|].
  repeat split.
Qed.

(** ** Instances *)

Lemma last_request_decides_witness :
  0 <= DOOR_HEIGHT_FEET source /\ idle newWorld
  /\ inBounds source (height newWorld)
  /\ exists w2,
       handleRequests source ([(to, Some 3); (down, Some 1)] ++ [(up, None)])
                      newWorld = Some w2
       /\ height w2 == DOOR_HEIGHT_FEET source.
Proof.
  split; [exact source_height_nonneg|].
  split; [reflexivity|].
  split; [exact newWorld_inBounds|].
  destruct (last_request_decides source [(to, Some 3); (down, Some 1)] up None
              newWorld source_height_nonneg eq_refl newWorld_inBounds)
    as (w1 & w2 & _ & E & _ & _ & Hup & _).
  exists w2. split; [exact E | apply Hup; reflexivity].
Defined.

Lemma resolved_height_inBounds_witness :
  0 <= DOOR_HEIGHT_FEET source /\ idle newWorld
  /\ inBounds source (height newWorld)
  /\ exists w',
       handleRequests source [(to, Some 7); (up, None)] newWorld = Some w'
       /\ inBounds source (height w').
Proof.
  split; [exact source_height_nonneg|].
  split; [reflexivity|].
  split; [exact newWorld_inBounds|].
  exact (proj2 (resolved_height_inBounds source [(to, Some 7); (up, None)]
                  newWorld source_height_nonneg eq_refl newWorld_inBounds)).
Defined.

Lemma same_height_request_witness :
  idle halfOpen /\ inBounds source (height halfOpen)
  /\ exists w',
       await (handleRequest source to (Some (height halfOpen))) halfOpen
       = Some w'
       /\ height w' == 3
       /\ (pulses halfOpen < pulses w')%nat.
Proof.
  split; [reflexivity|].
  split; [exact halfOpen_inBounds|].
  exact (same_height_request source halfOpen eq_refl halfOpen_inBounds).
Defined.

Lemma double_press_path_witness :
  DOOR_MAX_AUTO_BOUNCE_BACK_HEIGHT_FEET source <= 0
  /\ idle halfOpen /\ trace halfOpen = []
  /\ exists w',
       await (handleRequest source up (Some 1)) halfOpen = Some w'
       /\ said "Pressed button to toggle opener state" (history w') = true.
Proof.
  split; [exact source_never_bounces|].
  split; [reflexivity|].
  split; [reflexivity|].
  destruct (double_press_path source up (Some 1) halfOpen
              source_never_bounces eq_refl eq_refl)
    as (w' & E & Hsaid & _).
  exists w'. split; [exact E|].
  apply Hsaid. repeat split; vm_compute; reflexivity.
Defined.

Lemma double_press_tracks_against_latch_witness :
  DOOR_MAX_AUTO_BOUNCE_BACK_HEIGHT_FEET source <= 0
  /\ idle halfOpen /\ trace halfOpen = []
  /\ doorIsMoving (handler halfOpen) = false
  /\ lastDirectionWasUp (handler halfOpen) = true
  /\ exists w',
       await (handleRequest source up (Some 1)) halfOpen = Some w'
       /\ hd_error (heightsLatched true (history w'))
          = Some (false,
                  3 + MIN_TIME_BETWEEN_BUTTON_PRESSES_SEC source
                      * DOOR_OPEN_RATE_FEET_PER_SEC source)
       /\ 3 < 3 + MIN_TIME_BETWEEN_BUTTON_PRESSES_SEC source
                  * DOOR_OPEN_RATE_FEET_PER_SEC source.
Proof.
  split; [exact source_never_bounces|].
  split; [reflexivity|].
  split; [reflexivity|].
  split; [reflexivity|].
  split; [reflexivity|].
  destruct (double_press_tracks_against_latch source up (Some 1) halfOpen
              source_never_bounces eq_refl eq_refl eq_refl)
    as (w' & E & Hfirst & _ & Hside);
    try (vm_compute; reflexivity).
  exists w'. split; [exact E|]. split; [exact Hfirst | exact Hside].
Defined.


Lemma correctHeightBounds_clamps_witness :
  0 <= DOOR_HEIGHT_FEET source
  /\ correctHeightBounds source 8 <= DOOR_HEIGHT_FEET source
  /\ correctHeightBounds source (correctHeightBounds source 8)
     = correctHeightBounds source 8.
Proof.
  split; [exact source_height_nonneg|].
  destruct (correctHeightBounds_clamps source 8 source_height_nonneg)
    as [[_ Hle] [_ Hidem]].
  split; [exact Hle | exact Hidem].
Defined.

Lemma pressButton_toggles_witness :
  idle newWorld
  /\ exists w',
       pressTimes source (2 * 3) newWorld = Some w'
       /\ doorIsMoving (handler w') = false.
Proof.
  split; [reflexivity|].
  exact (proj2 (proj2 (pressButton_toggles source)) newWorld 3%nat eq_refl).
Defined.

Lemma zero_amount_is_absent_witness :
  0 == 0 /\ 0 <= DOOR_HEIGHT_FEET source /\ idle newWorld
  /\ inBounds source (height newWorld)
  /\ exists w',
       await (handleRequest source up (Some 0)) newWorld = Some w'
       /\ height w' == DOOR_HEIGHT_FEET source.
Proof.
  split; [reflexivity|].
  split; [exact source_height_nonneg|].
  split; [reflexivity|].
  split; [exact newWorld_inBounds|].
  exact (proj1 (proj2 (zero_amount_is_absent source 0 newWorld
                         (Qeq_refl 0) source_height_nonneg eq_refl
                         newWorld_inBounds))).
Defined.

(** ** More on the handler

    What the flags of the handler are when a request has resolved, what
    [stop()] does to a door that travels, and how requests add up. *)

Lemma timerDelay_pos (ms : Q) : 1 <= timerDelay ms.
Proof.
  unfold timerDelay. destruct (Qle_bool 1 ms) eqn:E; cbn [andb].
  - destruct (Qle_bool ms 2147483647); [apply Qle_bool_iff, E | lra].
  - lra.
Qed.

Lemma steps_app (a b : list Event) : steps (a ++ b) = steps a ++ steps b.
Proof.
  induction a as [|e a IH]; [reflexivity|].
  destruct e as [[|]| | | |]; cbn [app steps]; rewrite IH; reflexivity.
Qed.

Lemma orDefault_nonzero (d x : Q) : ~ d == 0 -> orDefault (Some d) x = d.
Proof.
  intros H. unfold orDefault. destruct (Qeq_bool d 0) eqn:E; [|reflexivity].
  apply Qeq_bool_iff in E. contradiction.
Qed.

Lemma orDefault_cases (d x : Q) :
  (d == 0 /\ orDefault (Some d) x = x)
  \/ (~ d == 0 /\ orDefault (Some d) x = d).
Proof.
  unfold orDefault. destruct (Qeq_bool d 0) eqn:E.
  - left. split; [apply Qeq_bool_iff, E | reflexivity].
  - right. split; [|reflexivity]. intros H. apply Qeq_bool_iff in H. congruence.
Qed.

Lemma Qeq_bool_wd (x y z : Q) : x == y -> Qeq_bool x z = Qeq_bool y z.
Proof.
  intros E. destruct (Qeq_bool y z) eqn:Ey.
  - apply Qeq_bool_iff. apply Qeq_bool_iff in Ey. rewrite E. exact Ey.
  - apply not_true_is_false. intros Ex. apply Qeq_bool_iff in Ex.
    rewrite E in Ex. apply Qeq_bool_iff in Ex. congruence.
Qed.

(** Linear arithmetic with [Qmax] and [Qmin]: each is named and known by
    its specification. *)
Ltac name_minmax a b f spec :=
  let m := fresh "m" in
  pose proof (spec a b); set (m := f a b) in *; clearbody m.

Ltac minmax :=
  repeat match goal with
         | |- context [Qmax ?a ?b] => name_minmax a b Qmax Q.max_spec
         | |- context [Qmin ?a ?b] => name_minmax a b Qmin Q.min_spec
         | H : context [Qmax ?a ?b] |- _ => name_minmax a b Qmax Q.max_spec
         | H : context [Qmin ?a ?b] |- _ => name_minmax a b Qmin Q.min_spec
         end;
  lra.

Section Handler.
Variable c : Constants.

(** The two timers of a pulse, in the loop that runs to its end and in the
    loop that runs up to a time. *)
Lemma drain_pressButton (fuel : nat) (k : unit -> Task) (w : World) :
  idle w ->
  drain (S (S fuel)) (exec (pressButton c k) w)
  = drain fuel (exec (k tt) (pressed c w)).
Proof.
  destruct w as [[h u m l] t n p tr]. unfold idle. cbn [pending]. intros ->.
  unfold pressButton. unfold_async.
  cbn [exec recorded armed app nextTimerId handler].
  cbn [drain pending earliest]. unfold fire.
  cbn [disarmed withClock filter timerId due callback]. unfold otherThan.
  cbn [timerId]. rewrite Nat.eqb_refl. cbn [negb].
  destruct m;
    cbn [exec recorded armed app nextTimerId handler withHandler doorIsMoving
         lastDirectionWasUp withDoorIsMoving withLastDirectionWasUp negb];
    cbn [drain pending earliest]; unfold fire;
    cbn [disarmed withClock filter timerId due callback]; unfold otherThan;
    cbn [timerId]; rewrite Nat.eqb_refl; reflexivity.
Qed.

Lemma advance_pressButton (fuel : nat) (until : Q) (k : unit -> Task)
    (w : World) :
  idle w ->
  clock w + timerDelay (DOOR_OPENER_SIGNAL_HOLD_TIME_SEC c * 1000)
  + timerDelay (MIN_TIME_BETWEEN_BUTTON_PRESSES_SEC c * 1000) <= until ->
  advance (S (S fuel)) until (exec (pressButton c k) w)
  = advance fuel until (exec (k tt) (pressed c w)).
Proof.
  destruct w as [[h u m l] t n p tr]. unfold idle. cbn [pending clock].
  intros -> H.
  pose proof (timerDelay_pos (MIN_TIME_BETWEEN_BUTTON_PRESSES_SEC c * 1000)).
  assert (F1 : Qle_bool
                 (t + timerDelay (DOOR_OPENER_SIGNAL_HOLD_TIME_SEC c * 1000))
                 until = true) by (apply Qle_bool_iff; lra).
  apply Qle_bool_iff in H.
  unfold pressButton. unfold_async.
  cbn [exec recorded armed app nextTimerId handler].
  cbn [advance pending earliest due]. rewrite F1. unfold fire.
  cbn [disarmed withClock filter timerId due callback]. unfold otherThan.
  cbn [timerId]. rewrite Nat.eqb_refl. cbn [negb].
  destruct m;
    cbn [exec recorded armed app nextTimerId handler withHandler doorIsMoving
         lastDirectionWasUp withDoorIsMoving withLastDirectionWasUp negb];
    cbn [advance pending earliest due]; rewrite H; unfold fire;
    cbn [disarmed withClock filter timerId due callback]; unfold otherThan;
    cbn [timerId]; rewrite Nat.eqb_refl; reflexivity.
Qed.

Lemma timeouts_handleRequest (mv : movement) (n : option Q) (w : World) :
  timeouts (handler (inOrder (async (handleRequest c mv n)) w))
  = timeouts (handler w).
Proof.
  destruct w as [[h0 u m l] t i p tr].
  unfold_request.
  destruct mv; cbn [movement_eqb]; run;
    rewrite ?removelast_last; reflexivity.
Qed.

Lemma doorIsMoving_handleRequest (mv : movement) (n : option Q) (w : World) :
  doorIsMoving (handler (inOrder (async (handleRequest c mv n)) w))
  = if isStoppingEarly c
         (correctHeightBounds c (requestedHeight c (handler w) mv n))
    then doorIsMoving (handler w)
    else negb (doorIsMoving (handler w)).
Proof.
  destruct w as [[h0 u m l] t i p tr].
  unfold_request. unfold requestedHeight.
  destruct mv, m; cbn [movement_eqb handler currentDoorHeight]; run;
    reflexivity.
Qed.

Lemma lastDirectionWasUp_handleRequest (mv : movement) (n : option Q)
    (w : World) :
  willBounceBack c (handler w) = false ->
  doorIsMoving (handler w) = false ->
  let shouldGoUp :=
    Qgt_bool (correctHeightBounds c (requestedHeight c (handler w) mv n))
             (height w) in
  lastDirectionWasUp (handler (inOrder (async (handleRequest c mv n)) w))
  = if doDoublePress c (handler w) shouldGoUp then shouldGoUp
    else negb (lastDirectionWasUp (handler w)).
Proof.
  destruct w as [[h0 u m l] t i p tr].
  cbn [handler doorIsMoving]. intros Hb ->. unfold height.
  cbn [handler currentDoorHeight].
  unfold_request. unfold requestedHeight.
  destruct mv; cbn [movement_eqb handler currentDoorHeight]; run;
    try congruence;
    repeat match goal with
           | H : negb ?b = _ |- _ =>
               apply (f_equal negb) in H;
               rewrite negb_involutive in H; cbn [negb] in H; rewrite H
           end; try reflexivity.
  all: match goal with
       | H : doDoublePress _ _ _ = true |- _ =>
           apply doDoublePress_iff in H; cbn in H; destruct H as (_ & _ & H)
       end.
  all: try (rewrite <- H; reflexivity).
  all: destruct u; cbn; congruence.
Qed.

(** X3.  Every handle that a request files in [this.timeouts] has been taken
    out again when the request resolves: the list is then what it was
    before the request. *)
Theorem request_restores_timeouts (mv : movement) (n : option Q) (w : World) :
  idle w ->
  exists w',
    await (handleRequest c mv n) w = Some w'
    /\ idle w'
    /\ timeouts (handler w') = timeouts (handler w).
Proof.
  intros Hw. rewrite (await_handleRequest c mv n w Hw).
  eexists. split; [reflexivity|].
  split; [apply idle_handleRequest, Hw | apply timeouts_handleRequest].
Qed.

(** X4.  When a request has resolved, [doorIsMoving] is what it was before
    if the target, brought within bounds, is strictly between the limits of
    the door, and the opposite if the target is a limit: no pulse ends a
    travel to a limit, so that a handler at rest holds the door to be moving
    after it. *)
Theorem request_moving_flag (mv : movement) (n : option Q) (w : World) :
  idle w ->
  let target := correctHeightBounds c (requestedHeight c (handler w) mv n) in
  exists w',
    await (handleRequest c mv n) w = Some w'
    /\ doorIsMoving (handler w')
       = (if isStoppingEarly c target then doorIsMoving (handler w)
          else negb (doorIsMoving (handler w)))
    /\ (doorIsMoving (handler w) = false ->
        (target == 0 \/ target == DOOR_HEIGHT_FEET c) ->
        doorIsMoving (handler w') = true).
Proof.
  intros Hw target. rewrite (await_handleRequest c mv n w Hw).
  eexists. split; [reflexivity|].
  rewrite doorIsMoving_handleRequest. fold target.
  split; [reflexivity|]. intros -> Hlimit.
  unfold isStoppingEarly.
  destruct Hlimit as [E|E].
  - assert (F : Qgt_bool target 0 = false)
      by (apply Qlt_bool_false_iff; rewrite E; lra).
    rewrite F, ?andb_false_r. reflexivity.
  - assert (F : Qlt_bool target (DOOR_HEIGHT_FEET c) = false)
      by (apply Qlt_bool_false_iff; rewrite E; lra).
    rewrite F, ?andb_false_r. reflexivity.
Qed.

(** X5.  On a handler at rest whose door will not bounce back, a request
    without a double press leaves [lastDirectionWasUp] the opposite of what
    it was, and a request with a double press leaves it the direction of the
    request. *)
Theorem request_direction_flag (mv : movement) (n : option Q) (w : World) :
  idle w ->
  willBounceBack c (handler w) = false ->
  doorIsMoving (handler w) = false ->
  let shouldGoUp :=
    Qgt_bool (correctHeightBounds c (requestedHeight c (handler w) mv n))
             (height w) in
  exists w',
    await (handleRequest c mv n) w = Some w'
    /\ lastDirectionWasUp (handler w')
       = if doDoublePress c (handler w) shouldGoUp then shouldGoUp
         else negb (lastDirectionWasUp (handler w)).
Proof.
  intros Hw Hb Hm shouldGoUp. rewrite (await_handleRequest c mv n w Hw).
  eexists. split; [reflexivity|].
  apply lastDirectionWasUp_handleRequest; assumption.
Qed.

(** X2.  [stop()] while the door travels.  A request on a handler at rest,
    with neither bounce-back nor double press, issues its pulse and arms its
    completion timer; when [stop()] is called after the pulse and before that
    timer is due, the timer is cleared and one more pulse is issued, nothing
    is left armed, [this.timeouts] is empty and [doorIsMoving] is false.  The
    tracked height is never written: it stays the height before the request,
    wherever the door has got to. *)
Theorem stop_during_travel (mv : movement) (n : option Q) (stopAt : Q)
    (w : World) :
  idle w -> timeouts (handler w) = [] -> doorIsMoving (handler w) = false ->
  let target := correctHeightBounds c (requestedHeight c (handler w) mv n) in
  let shouldGoUp := Qgt_bool target (height w) in
  let pulse := timerDelay (DOOR_OPENER_SIGNAL_HOLD_TIME_SEC c * 1000)
               + timerDelay (MIN_TIME_BETWEEN_BUTTON_PRESSES_SEC c * 1000) in
  let travel :=
    timerDelay (calculateTimeToReachHeight c (handler w) target shouldGoUp
                  (isStoppingEarly c target) * 1000) in
  willBounceBack c (handler w) = false ->
  doDoublePress c (handler w) shouldGoUp = false ->
  clock w + pulse <= stopAt -> stopAt < clock w + pulse + travel ->
  exists w',
    requestThenStop c mv n stopAt w = Some w'
    /\ idle w'
    /\ timeouts (handler w') = []
    /\ doorIsMoving (handler w') = false
    /\ height w' = height w
    /\ steps (history w') = steps (history w) ++ [Pulsed; Pulsed].
Proof.
  intros Hw Ht Hm target shouldGoUp pulse travel Hb Hd H1 H2.
  subst travel pulse shouldGoUp target. unfold height in *.
  destruct w as [[h0 u m l] t i p tr].
  cbn [handler timeouts doorIsMoving clock pending] in *.
  unfold idle in Hw. cbn [pending] in Hw. subst p l m.
  assert (H1' : t + timerDelay (DOOR_OPENER_SIGNAL_HOLD_TIME_SEC c * 1000)
                + timerDelay (MIN_TIME_BETWEEN_BUTTON_PRESSES_SEC c * 1000)
                <= stopAt) by lra.
  match type of H2 with
  | _ < _ + ?travel =>
      assert (F3 : Qle_bool
                     (t + timerDelay (DOOR_OPENER_SIGNAL_HOLD_TIME_SEC c * 1000)
                      + timerDelay
                          (MIN_TIME_BETWEEN_BUTTON_PRESSES_SEC c * 1000)
                      + travel) stopAt = false)
        by (apply Qle_bool_false_iff; lra)
  end.
  clear H1 H2.
  unfold requestThenStop, call.
  unfold_request. unfold requestedHeight in *.
  destruct mv; cbn [movement_eqb currentDoorHeight] in *.
  all: unfold_async.
  all: cbn [exec recorded handler currentDoorHeight].
  all: rewrite Hb; cbn [exec recorded handler]; rewrite Hd; cbn [negb].
  all: rewrite advance_pressButton by (reflexivity || exact H1').
  all: cbn [exec recorded armed handler pressed toggled withHandler
            withTimeouts app nextTimerId timeouts].
  all: cbn [advance pending earliest due].
  all: unfold calculateTimeToReachHeight in *; cbn [currentDoorHeight] in *.
  all: rewrite F3.
  all: cbn [withClock].
  all: unfold stop; unfold_async.
  all: cbn [exec recorded handler timeouts forOf disarmed filter withHandler
            withTimeouts doorIsMoving negb].
  all: unfold otherThan; cbn [timerId]; rewrite Nat.eqb_refl; cbn [negb].
  all: cbn [exec recorded handler timeouts forOf disarmed filter withHandler
            withTimeouts doorIsMoving negb].
  all: rewrite drain_pressButton by reflexivity.
  all: cbn [exec recorded pressed toggled handler withHandler];
    cbn [drain pending earliest].
  all: eexists; split; [reflexivity|].
  all: unfold idle, history, pressEvents;
    cbn [pending handler timeouts doorIsMoving currentDoorHeight trace
         lastDirectionWasUp negb withDoorIsMoving withLastDirectionWasUp].
  all: repeat split.
  all: cbn [app rev]; rewrite !steps_app; cbn [steps app];
    rewrite ?app_nil_r, <- ?app_assoc; reflexivity.
Qed.

Lemma Sequential_turnOnLight : Sequential 1 (async (turnOnLight c)).
Proof. unfold turnOnLight. sequential. Qed.

(** X10.  [turnOnLight] on an idle handler turns the pin off, waits
    [OPENER_LIGHT_BUTTON_PRESS_TIME_SEC], turns it on and resolves.  It logs
    nothing and it leaves every field of the handler as it was; on the pin,
    which is the pin of the door button, it is one more pulse. *)
Theorem turnOnLight_leaves_state (w : World) :
  idle w ->
  exists w',
    await (turnOnLight c) w = Some w'
    /\ handler w' = handler w
    /\ trace w' = EvPin true :: EvPin false :: trace w
    /\ pulses w' = S (pulses w)
    /\ clock w'
       = clock w + timerDelay (OPENER_LIGHT_BUTTON_PRESS_TIME_SEC c * 1000)
    /\ idle w'.
Proof.
  intros Hw.
  rewrite (await_inOrder 1 _ w Sequential_turnOnLight); [|lia|exact Hw].
  eexists. split; [reflexivity|].
  destruct w as [[h0 u m l] t i p tr]. cbn in Hw.
  unfold turnOnLight. cbn. repeat split. exact Hw.
Qed.

(** X11.  The steps of the bounce-back path.  From at or below the
    bounce-back height, with the door last moved down, a request issues a
    pulse and waits for the door to bounce back above that height, which it
    then takes as the tracked height.  A request upwards goes on from there;
    a request downwards first stops the door with a second pulse, tracks the
    delay, and starts it downwards with a third.  The log never says that
    the button was pressed to toggle the opener state. *)
Theorem bounce_back_steps (mv : movement) (n : option Q) (w : World) :
  idle w -> trace w = [] ->
  height w <= DOOR_MAX_AUTO_BOUNCE_BACK_HEIGHT_FEET c ->
  0 < height w ->
  lastDirectionWasUp (handler w) = false ->
  let target := correctHeightBounds c (requestedHeight c (handler w) mv n) in
  let above := DOOR_MAX_AUTO_BOUNCE_BACK_HEIGHT_FEET c * (11 # 10) in
  let finish :=
    (if isStoppingEarly c target then [Pulsed] else []) ++ [Moved target] in
  exists w',
    await (handleRequest c mv n) w = Some w'
    /\ said "Pressed button to toggle opener state" (history w') = false
    /\ steps (history w')
       = if Qgt_bool target (height w)
         then Pulsed :: Moved above :: finish
         else Pulsed :: Moved above :: Pulsed
              :: Moved (above + DOOR_OPEN_RATE_FEET_PER_SEC c
                                * DOOR_AUTO_BOUNCE_BACK_DELAY_SEC c)
              :: Pulsed :: finish.
Proof.
  intros Hw Htr H1 H2 H3 target above finish.
  assert (Hb : willBounceBack c (handler w) = true).
  { apply willBounceBack_iff. auto. }
  rewrite (await_handleRequest c mv n w Hw). eexists. split; [reflexivity|].
  subst finish above target. unfold height in *.
  destruct w as [[h0 u m l] t i p tr]. cbn [trace] in Htr. subst tr.
  cbn [handler currentDoorHeight] in *.
  unfold_request.
  unfold pressEvents, requestedHeight, isStoppingEarly.
  destruct mv, m; cbn [movement_eqb currentDoorHeight]; run.
  all: try congruence.
  all: cbn [app doorIsMoving lastDirectionWasUp negb].
  all: repeat match goal with
              | |- context [said ?s ?l] =>
                  let b := eval vm_compute in (said s l) in
                  change (said s l) with b
              end.
  all: split; reflexivity.
Qed.

(** The height when a relative request has resolved. *)
Lemma await_relative (goesUp : bool) (d : Q) (w : World) :
  idle w ->
  exists w',
    await (handleRequest c (if goesUp then up else down) (Some d)) w = Some w'
    /\ idle w'
    /\ height w'
       = correctHeightBounds c
           (height w + orDefault (Some d) (DOOR_HEIGHT_FEET c)
                       * (if goesUp then 1 else - (1))).
Proof.
  intros Hw. rewrite (await_handleRequest c _ _ w Hw).
  eexists. split; [reflexivity|]. split; [apply idle_handleRequest, Hw|].
  rewrite height_handleRequest. destruct goesUp; reflexivity.
Qed.

(** X6.  A request ['up'] never lowers the tracked height and a request
    ['down'] never raises it, whatever distance, not negative, it is given. *)
Theorem relative_request_monotone (d : Q) (w : World) :
  0 <= DOOR_HEIGHT_FEET c -> idle w -> inBounds c (height w) -> 0 <= d ->
  (exists w', await (handleRequest c up (Some d)) w = Some w'
              /\ height w <= height w')
  /\ (exists w', await (handleRequest c down (Some d)) w = Some w'
                 /\ height w' <= height w).
Proof.
  intros HD Hw [Hb0 Hb1] Hd. split.
  - destruct (await_relative true d w Hw) as (w' & E & _ & Hh).
    exists w'. split; [exact E|]. rewrite Hh. unfold correctHeightBounds.
    destruct (orDefault_cases d (DOOR_HEIGHT_FEET c)) as [[_ ->]|[_ ->]];
      minmax.
  - destruct (await_relative false d w Hw) as (w' & E & _ & Hh).
    exists w'. split; [exact E|]. rewrite Hh. unfold correctHeightBounds.
    destruct (orDefault_cases d (DOOR_HEIGHT_FEET c)) as [[_ ->]|[_ ->]];
      minmax.
Qed.

(** X8.  A request that reaches a limit of the door or beyond ends at that
    limit: ['up'] by a distance that takes the tracked height to the height
    of the door or above it leaves it at the height of the door, and ['down']
    by a distance that takes it to the floor or below leaves it at zero. *)
Theorem relative_request_stops_at_limit (d : Q) (w : World) :
  0 <= DOOR_HEIGHT_FEET c -> idle w -> 0 < d ->
  (DOOR_HEIGHT_FEET c <= height w + d ->
   exists w', await (handleRequest c up (Some d)) w = Some w'
              /\ height w' == DOOR_HEIGHT_FEET c)
  /\ (height w - d <= 0 ->
      exists w', await (handleRequest c down (Some d)) w = Some w'
                 /\ height w' == 0).
Proof.
  intros HD Hw Hd. split; intros Hlim.
  - destruct (await_relative true d w Hw) as (w' & E & _ & Hh).
    exists w'. split; [exact E|].
    rewrite Hh, orDefault_nonzero by lra.
    unfold correctHeightBounds. minmax.
  - destruct (await_relative false d w Hw) as (w' & E & _ & Hh).
    exists w'. split; [exact E|].
    rewrite Hh, orDefault_nonzero by lra.
    unfold correctHeightBounds. minmax.
Qed.

(** X9.  From a closed door, ['up'] by a distance and then ['down'] by the
    same distance closes the door again, whatever the distance. *)
Theorem closed_door_round_trip (d : Q) (w : World) :
  0 <= DOOR_HEIGHT_FEET c -> idle w -> height w == 0 -> 0 < d ->
  exists w',
    handleRequests c [(up, Some d); (down, Some d)] w = Some w'
    /\ height w' == 0.
Proof.
  intros HD Hw H0 Hd. cbn [handleRequests].
  destruct (await_relative true d w Hw) as (w1 & E1 & Hw1 & Hh1).
  destruct (await_relative false d w1 Hw1) as (w2 & E2 & _ & Hh2).
  rewrite E1, E2. exists w2. split; [reflexivity|].
  rewrite Hh2, Hh1. rewrite !orDefault_nonzero by lra.
  unfold correctHeightBounds. minmax.
Qed.

(** X12.  What [getCurrentDoorHeight] reports after a request: fully open
    after ['up'] without a distance, closed after ['down'] without one, and
    the height in feet after ['to'] a height strictly between the limits. *)
Theorem status_after_request (w : World) :
  0 < DOOR_HEIGHT_FEET c -> idle w -> inBounds c (height w) ->
  (exists w', await (handleRequest c up None) w = Some w'
              /\ getCurrentDoorHeight c (handler w') = [Text "fully open"])
  /\ (exists w', await (handleRequest c down None) w = Some w'
                 /\ getCurrentDoorHeight c (handler w') = [Text "closed"])
  /\ (forall h, 0 < h -> h < DOOR_HEIGHT_FEET c ->
      exists w' h',
        await (handleRequest c to (Some h)) w = Some w'
        /\ getCurrentDoorHeight c (handler w')
           = [Text "at "; Number (Some h'); Text " feet"]
        /\ h' == h).
Proof.
  intros HD Hw [Hb0 Hb1].
  assert (Hup : height (inOrder (async (handleRequest c up None)) w)
                == DOOR_HEIGHT_FEET c).
  { rewrite height_handleRequest. unfold requestedHeight.
    cbn [movement_eqb orDefault]. fold (height w).
    apply correctHeightBounds_above; lra. }
  assert (Hdown : height (inOrder (async (handleRequest c down None)) w)
                  == 0).
  { rewrite height_handleRequest. unfold requestedHeight.
    cbn [movement_eqb orDefault]. fold (height w).
    apply correctHeightBounds_below; lra. }
  unfold getCurrentDoorHeight. split; [|split].
  - rewrite (await_handleRequest c up None w Hw).
    eexists. split; [reflexivity|].
    fold (height (inOrder (async (handleRequest c up None)) w)).
    rewrite (Qeq_bool_wd _ _ 0 Hup).
    rewrite (Qeq_bool_wd _ _ (DOOR_HEIGHT_FEET c) Hup).
    assert (F : Qeq_bool (DOOR_HEIGHT_FEET c) 0 = false).
    { apply not_true_is_false. intros F. apply Qeq_bool_iff in F. lra. }
    rewrite F. rewrite (proj2 (Qeq_bool_iff _ _) (Qeq_refl _)). reflexivity.
  - rewrite (await_handleRequest c down None w Hw).
    eexists. split; [reflexivity|].
    fold (height (inOrder (async (handleRequest c down None)) w)).
    rewrite (Qeq_bool_wd _ _ 0 Hdown). reflexivity.
  - intros h H0 H1.
    rewrite (await_handleRequest c to (Some h) w Hw).
    assert (Hto : height (inOrder (async (handleRequest c to (Some h))) w)
                  == h).
    { rewrite height_handleRequest. unfold requestedHeight.
      cbn [movement_eqb]. rewrite orDefault_nonzero by lra.
      apply correctHeightBounds_within. split; lra. }
    eexists. eexists. split; [reflexivity|].
    fold (height (inOrder (async (handleRequest c to (Some h))) w)).
    rewrite (Qeq_bool_wd _ _ 0 Hto).
    rewrite (Qeq_bool_wd _ _ (DOOR_HEIGHT_FEET c) Hto).
    assert (F0 : Qeq_bool h 0 = false).
    { apply not_true_is_false. intros F. apply Qeq_bool_iff in F. lra. }
    assert (F1 : Qeq_bool h (DOOR_HEIGHT_FEET c) = false).
    { apply not_true_is_false. intros F. apply Qeq_bool_iff in F. lra. }
    rewrite F0, F1. split; [reflexivity | exact Hto].
Qed.

End Handler.

(** ** The callers of the handler *)

Section Console.
Variable c : Constants.

Lemma Sequential_onLine (line : string) : Sequential 10 (async (onLine c line)).
Proof.
  unfold onLine, handleDistanceRequest.
  repeat first [ apply Sequential_handleHeightRequest; constructor
               | sequential_step ].
Qed.

Lemma height_onLine (line : string) (w : World) :
  height (inOrder (async (onLine c line)) w)
  = correctHeightBounds c
      (if String.eqb line "to" then 0
       else height w + DOOR_HEIGHT_FEET c
                       * (if String.eqb line "up" then 1 else - (1))).
Proof.
  destruct w as [[h0 u m l] t i p tr].
  unfold onLine, handleDistanceRequest.
  destruct (String.eqb line "to"), (String.eqb line "up");
    unfold_async; cbn [inOrder recorded handler movement_eqb orDefault];
    apply height_handleHeightRequest.
Qed.

(** X13.  A line typed at the console is handed to the handler as a
    movement without a distance, whatever it says.  The line [up] opens the
    door fully; every other line, be it [down], [to], [stop] or a slip of
    the keys, closes it. *)
Theorem typed_line_opens_or_closes (line : string) (w : World) :
  0 <= DOOR_HEIGHT_FEET c -> idle w -> inBounds c (height w) ->
  exists w',
    await (onLine c line) w = Some w'
    /\ (line = "up"%string -> height w' == DOOR_HEIGHT_FEET c)
    /\ (line <> "up"%string -> height w' == 0).
Proof.
  intros HD Hw [Hb0 Hb1].
  rewrite (await_inOrder 10 _ w (Sequential_onLine line)); [|lia|exact Hw].
  eexists. split; [reflexivity|].
  rewrite height_onLine. split.
  - intros ->. cbn.
    apply correctHeightBounds_above; [exact HD | lra].
  - intros Hne. destruct (String.eqb_spec line "to").
    + apply correctHeightBounds_below. lra.
    + destruct (String.eqb_spec line "up"); [contradiction|].
      apply correctHeightBounds_below. lra.
Qed.

End Console.

Lemma includes_VALID_MOVEMENTS (s : string) :
  includes VALID_MOVEMENTS s = true <-> exists m, movementNamed s = Some m.
Proof.
  unfold includes, VALID_MOVEMENTS, movementNamed. cbn [existsb].
  destruct (String.eqb s "up"), (String.eqb s "down"), (String.eqb s "to");
    cbn; split; intros H; try reflexivity; try discriminate;
    try (eexists; reflexivity); destruct H; discriminate.
Qed.

Section Server.
Variable parseFloat : string -> Parsed.
Hypothesis parseFloat_empty : parseFloat EmptyString = NotANumber.

(** X14.  [App.handleRequest] passes a request on to the handler exactly
    when the movement is one of [up], [down] and [to] and the distance is
    either missing or empty, and then passed on as [NaN], or a text that
    [parseFloat] reads as a number that is not negative, finite or infinite,
    and then passed on as that number.  Every other request is answered with
    an error. *)
Theorem App_handleRequest_validates (name : string)
    (distanceParam : option string) (m : movement) (d : Parsed) :
  App_handleRequest parseFloat name distanceParam = PassedOn m d
  <-> movementNamed name = Some m
      /\ ((truthy distanceParam = false /\ d = NotANumber)
          \/ exists s, distanceParam = Some s /\ s <> EmptyString
                       /\ parseFloat s = d /\ notNegative d = true).
Proof.
  unfold App_handleRequest.
  destruct (includes VALID_MOVEMENTS name) eqn:Ei.
  - apply includes_VALID_MOVEMENTS in Ei. destruct Ei as [m' Em]. rewrite Em.
    destruct distanceParam as [s|]; cbn [truthy negb orb].
    + destruct (String.eqb_spec s EmptyString) as [->|Hs]; cbn [negb orb].
      * rewrite parseFloat_empty. split.
        -- intros [= <- <-]. split; [reflexivity|]. left. split; reflexivity.
        -- intros [[= ->] [[_ ->]|(s & [= <-] & Hs & _)]];
             [reflexivity | contradiction].
      * destruct (notNegative (parseFloat s)) eqn:Eq.
        -- split.
           ++ intros [= <- <-]. split; [reflexivity|]. right.
              exists s. repeat split; assumption.
           ++ intros [[= ->] [[Hf _]|(s' & [= <-] & _ & <- & _)]];
                [discriminate Hf | reflexivity].
        -- split; [discriminate|].
           intros [_ [[Hf _]|(s' & [= <-] & _ & <- & Hq)]];
             [discriminate Hf | congruence].
    + split.
      * intros [= <- <-]. split; [reflexivity|]. left. split; reflexivity.
      * intros [[= ->] [[_ ->]|(s & H & _)]]; [reflexivity|discriminate H].
  - split; [discriminate|]. intros [Hm _].
    assert (includes VALID_MOVEMENTS name = true)
      by (apply includes_VALID_MOVEMENTS; eauto).
    congruence.
Qed.

(** The amount of a request that was passed on. *)
Lemma passed_on_amount (name : string) (distanceParam : option string)
    (m : movement) (d : Parsed) (n : option Q) :
  App_handleRequest parseFloat name distanceParam = PassedOn m d ->
  amount d = Some n ->
  (n = None \/ exists q, n = Some q /\ 0 <= q)
  /\ (distanceParam = None -> n = None).
Proof.
  unfold App_handleRequest.
  destruct (includes VALID_MOVEMENTS name); [|discriminate].
  destruct (movementNamed name) as [m'|].
  - destruct distanceParam as [s|]; cbn [truthy negb orb].
    + destruct (parseFloat s) as [|q|negative] eqn:Ep; cbn [notNegative].
      * rewrite orb_false_r.
        destruct (negb (negb (s =? EmptyString)%string)); [|discriminate].
        intros [= <- <-] [= <-]. split; [left; reflexivity | discriminate].
      * destruct (Qle_bool 0 q) eqn:Eq.
        -- rewrite orb_true_r. intros [= <- <-] [= <-].
           split; [|discriminate]. right. exists q. split; [reflexivity|].
           apply Qle_bool_iff, Eq.
        -- rewrite orb_false_r.
           destruct (negb (negb (s =? EmptyString)%string)) eqn:Es;
             [|discriminate].
           rewrite negb_involutive in Es.
           apply String.eqb_eq in Es. subst s.
           rewrite parseFloat_empty in Ep. discriminate Ep.
      * destruct (_ || _); [|discriminate].
        intros [= <- <-]. discriminate.
    + intros [= <- <-] [= <-]. split; [left|]; reflexivity.
  - destruct (_ || _); discriminate.
Qed.

Variable c : Constants.

(** X15.  A request that [App.handleRequest] passes on with an amount that
    is [NaN] or finite keeps to its direction in the handler: ['up'] never
    lowers the tracked height, ['down'] never raises it, and ['to'] on the
    route without a distance closes the door. *)
Theorem passed_on_request_keeps_direction (name : string)
    (distanceParam : option string) (m : movement) (d : Parsed)
    (n : option Q) (w : World) :
  0 <= DOOR_HEIGHT_FEET c -> idle w -> inBounds c (height w) ->
  App_handleRequest parseFloat name distanceParam = PassedOn m d ->
  amount d = Some n ->
  exists w',
    await (handleRequest c m n) w = Some w'
    /\ (m = up -> height w <= height w')
    /\ (m = down -> height w' <= height w)
    /\ (m = to -> distanceParam = None -> height w' == 0).
Proof.
  intros HD Hw [Hb0 Hb1] Ha Hn.
  destruct (passed_on_amount _ _ _ _ _ Ha Hn) as [Hamount Hnone].
  rewrite (await_handleRequest c m n w Hw). eexists. split; [reflexivity|].
  rewrite height_handleRequest. unfold requestedHeight, correctHeightBounds.
  fold (height w).
  repeat split.
  - intros ->. cbn [movement_eqb].
    destruct Hamount as [->|(q & -> & Hq)].
    + cbn [orDefault]. minmax.
    + destruct (orDefault_cases q (DOOR_HEIGHT_FEET c)) as [[_ ->]|[_ ->]];
        minmax.
  - intros ->. cbn [movement_eqb].
    destruct Hamount as [->|(q & -> & Hq)].
    + cbn [orDefault]. minmax.
    + destruct (orDefault_cases q (DOOR_HEIGHT_FEET c)) as [[_ ->]|[_ ->]];
        minmax.
  - intros -> E. cbn [movement_eqb]. rewrite (Hnone E).
    cbn [orDefault]. minmax.
Qed.

End Server.

Section Routing.
Variable decodeURIComponent : string -> option string.
Variable decodePath : list string -> option string.

Local Open Scope string_scope.

(** X16.  No request is answered by the handler of [/garageDoor/stop] or by
    the handler of [/garageDoor/light]: a path that matches one of them also
    matches [/garageDoor/:movement], which was added before them for the
    same method. *)
Theorem stop_route_is_shadowed (method : Method) (path : list string)
    (params : list (string * string)) :
  dispatch decodeURIComponent decodePath routes method path
  <> Handled stopRoute params
  /\ dispatch decodeURIComponent decodePath routes method path
     <> Handled lightRoute params.
Proof.
  unfold routes.
  destruct path as [|a [|b [|d [|e path]]]];
    cbn [dispatch matchPattern matchSegments].
  all: try (destruct b as [|x b]; cbn [String.eqb]).
  all: try (destruct d as [|y d]; cbn [String.eqb]).
  all: try (destruct e as [|z e]; destruct path as [|f path]).
  all: cbv iota.
  all: repeat match goal with
              | |- context [sameIgnoringCase ?s EmptyString] =>
                  change (sameIgnoringCase s EmptyString) with false
              end.
  all: destruct method; cbn [handles]; cbv iota.
  all: repeat (match goal with
               | |- context [decodeURIComponent ?p] =>
                   destruct (decodeURIComponent p)
               | |- context [decodePath ?p] => destruct (decodePath p)
               | |- context [sameIgnoringCase ?s ?p] =>
                   destruct (sameIgnoringCase s p)
               end; cbv iota).
  all: split; discriminate.
Qed.

End Routing.

Lemma length_append (s1 s2 : string) :
  String.length (String.append s1 s2)
  = (String.length s1 + String.length s2)%nat.
Proof.
  induction s1 as [|a s1 IH]; cbn; [reflexivity | rewrite IH; reflexivity].
Qed.

Lemma length_repeatString (s : string) (n : nat) :
  String.length (repeatString s n) = (n * String.length s)%nat.
Proof.
  induction n as [|n IH]; cbn [repeatString]; [reflexivity|].
  rewrite length_append, IH. reflexivity.
Qed.

Lemma substring_all (s : string) : String.substring 0 (String.length s) s = s.
Proof.
  induction s as [|a s IH]; cbn; [reflexivity | rewrite IH; reflexivity].
Qed.

Lemma substringFrom_append (p s : string) :
  substringFrom (String.length p) (String.append p s) = s.
Proof.
  unfold substringFrom. induction p as [|a p IH].
  - cbn. rewrite Nat.sub_0_r. apply substring_all.
  - cbn [String.append String.length Nat.sub String.substring]. exact IH.
Qed.

Lemma substringFrom_suffix (n : nat) (s : string) :
  exists p, s = String.append p (substringFrom n s).
Proof.
  unfold substringFrom. revert n.
  induction s as [|a s IH]; intros n.
  - exists EmptyString. destruct n; reflexivity.
  - destruct n as [|n].
    + exists EmptyString. cbn [String.append]. rewrite Nat.sub_0_r.
      symmetry. apply substring_all.
    + destruct (IH n) as [p Hp]. exists (String a p).
      cbn [String.append String.length Nat.sub String.substring].
      f_equal. exact Hp.
Qed.

(** X18.  [getSourceIP] gives an end of the address: the whole address when
    [f:] is not in it, and the IPv4 address of an address that an IPv6
    socket reports with [::ffff:] before it. *)
Theorem getSourceIP_strips (remoteAddress : string) :
  (exists dropped,
     remoteAddress = String.append dropped (getSourceIP remoteAddress))
  /\ (String.index 0 "f:" remoteAddress = None ->
      getSourceIP remoteAddress = remoteAddress)
  /\ getSourceIP (String.append "::ffff:" remoteAddress) = remoteAddress.
Proof.
  split; [|split].
  - apply substringFrom_suffix.
  - unfold getSourceIP. intros ->. unfold substringFrom.
    rewrite Nat.sub_0_r. apply substring_all.
  - unfold getSourceIP.
    assert (E : String.index 0 "f:" (String.append "::ffff:" remoteAddress)
                = Some 5%nat)
      by (destruct remoteAddress; reflexivity).
    rewrite E.
    apply (substringFrom_append "::ffff:" remoteAddress).
Qed.

(** ** The test suites *)

Section Tests.
Variable c : Constants.

Lemma runTests_app (t1 t2 : list (movement * option Q * Q)) (w : World) :
  runTests c (t1 ++ t2) w
  = match runTests c t1 w with
    | Some (w', r1) =>
        match runTests c t2 w' with
        | Some (w'', r2) => Some (w'', r1 ++ r2)
        | None => None
        end
    | None => None
    end.
Proof.
  revert w. induction t1 as [|[[mv n] e] t1 IH]; intros w;
    cbn [runTests app].
  - destruct (runTests c t2 w) as [[w'' r2]|]; reflexivity.
  - destruct (runTest c mv n e w) as [[w' b]|]; [|reflexivity].
    rewrite IH. destruct (runTests c t1 w') as [[w1 r1]|]; [|reflexivity].
    destruct (runTests c t2 w1) as [[w2 r2]|]; reflexivity.
Qed.

(** The outcome of a test is decided by the target of its request, brought
    within bounds. *)
Lemma runTest_outcome (mv : movement) (n : option Q) (expected actual : Q)
    (w : World) :
  idle w ->
  correctHeightBounds c (requestedHeight c (handler w) mv n) == actual ->
  exists w', runTest c mv n expected w
             = Some (w', Qeq_bool actual expected)
             /\ idle w' /\ height w' == actual.
Proof.
  intros Hw He. unfold runTest. rewrite (await_handleRequest c mv n w Hw).
  eexists. split; [|split].
  - f_equal. f_equal. apply Qeq_bool_wd.
    rewrite height_handleRequest. exact He.
  - apply idle_handleRequest, Hw.
  - rewrite height_handleRequest. exact He.
Qed.

(** Tests that ask for a height within the travel of the door and expect it
    pass. *)
Lemma askedHeights_pass (hs : list Q) (w : World) :
  idle w -> inBounds c (height w) -> Forall (inBounds c) hs ->
  exists w',
    runTests c (map heightTest hs) w
    = Some (w', repeat true (Datatypes.length hs))
    /\ idle w' /\ inBounds c (height w').
Proof.
  intros Hw Hb Hhs. revert w Hw Hb.
  induction Hhs as [|h hs Hh _ IH]; intros w Hw Hb;
    cbn [map runTests Datatypes.length repeat].
  - exists w. split; [reflexivity|]. split; assumption.
  - unfold heightTest at 1.
    destruct (runTest_outcome to (Some h) h h w Hw) as (w1 & -> & Hw1 & Hh1).
    { unfold requestedHeight. cbn [movement_eqb].
      rewrite (correctHeightBounds_wd c _ _ (orDefault_zero h)).
      apply correctHeightBounds_within, Hh. }
    destruct (IH w1 Hw1) as (w' & -> & Hw' & Hb').
    { destruct Hh as [H0 H1]. split; rewrite Hh1; assumption. }
    exists w'. split; [|split; assumption].
    rewrite (proj2 (Qeq_bool_iff h h) (Qeq_refl h)). reflexivity.
Qed.

End Tests.

(** Closed comparisons and quotients are computed. *)
Ltac decide_closed :=
  repeat match goal with
         | |- context [Qeq_bool ?a ?b] =>
             let v := eval vm_compute in (Qeq_bool a b) in
             change (Qeq_bool a b) with v
         end;
  cbv iota;
  repeat match goal with
         | |- context [Qdiv ?a ?b] =>
             let v := eval vm_compute in (Qdiv a b) in
             change (Qdiv a b) with v
         | H : context [Qdiv ?a ?b] |- _ =>
             let v := eval vm_compute in (Qdiv a b) in
             change (Qdiv a b) with v in H
         end.

(** The next test of a suite that is written out leaves the height at
    [actual], by arithmetic on the height the test before has left. *)
Ltac next_test actual Hw :=
  let w' := fresh "w" in
  let Hw' := fresh "Hw" in
  let Hh' := fresh "Hh" in
  cbn [runTests];
  match goal with
  | |- context [runTest ?c ?mv ?n ?e ?w] =>
      destruct (runTest_outcome c mv n e actual w Hw)
        as (w' & -> & Hw' & Hh');
      [ unfold requestedHeight, correctHeightBounds, orDefault, height,
          TEST_DOOR_HEIGHT_FEET in *;
        cbn [movement_eqb DOOR_HEIGHT_FEET source] in *;
        decide_closed; minmax
      | clear Hw ]
  end.

Lemma distanceTests_pass (c : Constants) (w : World) :
  DOOR_HEIGHT_FEET c == TEST_DOOR_HEIGHT_FEET ->
  idle w -> inBounds c (height w) ->
  exists w',
    runTests c distanceTests w = Some (w', repeat true 8) /\ idle w'.
Proof.
  intros HD Hw [Hb0 Hb1]. unfold distanceTests.
  next_test (75 # 10) Hw.
  next_test 0 Hw0.
  next_test (375 # 100) Hw.
  next_test (75 # 10) Hw0.
  next_test (45 # 10) Hw.
  next_test (15 # 10) Hw0.
  next_test 0 Hw.
  next_test (75 # 10) Hw0.
  cbn [runTests]. eexists. split; [reflexivity | assumption].
Qed.

Lemma heightTests_pass (c : Constants) (w : World) :
  DOOR_HEIGHT_FEET c == TEST_DOOR_HEIGHT_FEET ->
  idle w ->
  exists w',
    runTests c heightTests w = Some (w', repeat true 8) /\ idle w'.
Proof.
  intros HD Hw. unfold heightTests.
  next_test (75 # 10) Hw.
  next_test 0 Hw0.
  next_test (375 # 100) Hw.
  next_test (75 # 10) Hw0.
  next_test (45 # 10) Hw.
  next_test (15 # 10) Hw0.
  next_test 0 Hw.
  next_test (75 # 10) Hw0.
  cbn [runTests]. eexists. split; [reflexivity | assumption].
Qed.

(** X19.  With a door as high as the test file takes it to be, every
    assertion of the four suites holds when they run in the order of the
    file on one handler: the tests with heights drawn within the travel of
    the door, the bounce-back tests, the distance tests and the height
    tests. *)
Theorem test_suites_pass (c : Constants) (heights : list Q) (w : World) :
  DOOR_HEIGHT_FEET c == TEST_DOOR_HEIGHT_FEET ->
  idle w -> inBounds c (height w) ->
  Forall (fun h => 0 <= h /\ h <= TEST_DOOR_HEIGHT_FEET) heights ->
  exists w',
    runTests c (randomNumberTests heights ++ bouncebackTests
                ++ distanceTests ++ heightTests) w
    = Some (w', repeat true (Datatypes.length heights + 9 + 8 + 8)).
Proof.
  intros HD Hw Hb Hhs.
  assert (Hin : forall h, 0 <= h /\ h <= TEST_DOOR_HEIGHT_FEET ->
                          inBounds c h).
  { intros h [H0 H1]. split; [exact H0 | rewrite HD; exact H1]. }
  destruct (askedHeights_pass c heights w Hw Hb) as (w1 & E1 & Hw1 & Hb1).
  { eapply Forall_impl; [exact Hin | exact Hhs]. }
  destruct (askedHeights_pass c
              [15 # 10; 75 # 100; 25 # 100; 75 # 100; 15 # 10; 2; 15 # 10; 0;
               25 # 100] w1 Hw1 Hb1) as (w2 & E2 & Hw2 & Hb2).
  { repeat constructor; apply Hin; unfold TEST_DOOR_HEIGHT_FEET; lra. }
  destruct (distanceTests_pass c w2 HD Hw2 Hb2) as (w3 & E3 & Hw3).
  destruct (heightTests_pass c w3 HD Hw3) as (w4 & E4 & _).
  exists w4. unfold randomNumberTests, bouncebackTests.
  rewrite runTests_app, E1. rewrite runTests_app, E2.
  rewrite runTests_app, E3, E4.
  f_equal. f_equal. cbn [Datatypes.length].
  rewrite <- !repeat_app. f_equal. lia.
Qed.

(** X20.  With the door as high as the source has it, which is lower than
    the test file takes it to be, the assertions of tests 1, 4, 5, 6 and 8 of
    the distance tests and of tests 1, 4 and 8 of the height tests fail and
    the others hold, from whatever height the suites start. *)
Theorem tests_fail_on_source (w : World) :
  idle w -> inBounds source (height w) ->
  (exists w', runTests source distanceTests w
              = Some (w', [false; true; true; false; false; false; true;
                           false]))
  /\ (exists w', runTests source heightTests w
                 = Some (w', [false; true; true; false; true; true; true;
                              false])).
Proof.
  intros Hw [Hb0 Hb1]. split.
  - unfold distanceTests.
    next_test (70833 # 10000) Hw.
    next_test 0 Hw0.
    next_test (375 # 100) Hw.
    next_test (70833 # 10000) Hw0.
    next_test (40833 # 10000) Hw.
    next_test (10833 # 10000) Hw0.
    next_test 0 Hw.
    next_test (70833 # 10000) Hw0.
    cbn [runTests]. eexists. reflexivity.
  - unfold heightTests.
    next_test (70833 # 10000) Hw.
    next_test 0 Hw0.
    next_test (375 # 100) Hw.
    next_test (70833 # 10000) Hw0.
    next_test (45 # 10) Hw.
    next_test (15 # 10) Hw0.
    next_test 0 Hw.
    next_test (70833 # 10000) Hw0.
    cbn [runTests]. eexists. reflexivity.
Qed.

(** ** Texts and numbers *)

(** X21.  [formatClassName] pads the name of the class with spaces to
    seventeen characters, and throws when the name is longer than that. *)
Theorem formatClassName_pads (className : string) :
  (forall padded, formatClassName className = Some padded ->
     String.length padded = 17%nat
     /\ exists spaces, padded = String.append className spaces)
  /\ (formatClassName className = None
      <-> (17 < String.length className)%nat).
Proof.
  unfold formatClassName.
  destruct (Nat.leb_spec (String.length className) 17) as [H|H]; split.
  - intros padded E.
    assert (E' : padded
                 = String.append className
                     (repeatString " " (17 - String.length className)))
      by congruence.
    subst padded. split.
    + rewrite length_append, length_repeatString.
      change (String.length " ") with 1%nat. lia.
    + eexists. reflexivity.
  - split; [discriminate | lia].
  - discriminate.
  - split; [intros _; exact H | reflexivity].
Qed.

Lemma Qlt_bool_wd (x x' y y' : Q) :
  x == x' -> y == y' -> Qlt_bool x y = Qlt_bool x' y'.
Proof.
  intros Ex Ey. destruct (Qlt_bool x' y') eqn:E.
  - apply Qlt_bool_iff. apply Qlt_bool_iff in E. rewrite Ex, Ey. exact E.
  - apply Qlt_bool_false_iff. apply Qlt_bool_false_iff in E.
    rewrite Ex, Ey. exact E.
Qed.

Lemma append_assoc (a b d : string) :
  String.append (String.append a b) d = String.append a (String.append b d).
Proof.
  induction a as [|x a IH]; cbn; [reflexivity | rewrite IH; reflexivity].
Qed.

Lemma ten_pow_succ (k : nat) :
  inject_Z (10 ^ Z.of_nat (S k)) == 10 * inject_Z (10 ^ Z.of_nat k).
Proof.
  rewrite Nat2Z.inj_succ, Z.pow_succ_r by lia.
  rewrite inject_Z_mult. reflexivity.
Qed.

Lemma ten_pow_mono (a b : nat) :
  (a <= b)%nat -> inject_Z (10 ^ Z.of_nat a) <= inject_Z (10 ^ Z.of_nat b).
Proof.
  intros H. rewrite <- Zle_Qle. apply Z.pow_le_mono_r; lia.
Qed.

Lemma ten_pow_pos (a : nat) : 1 <= inject_Z (10 ^ Z.of_nat a).
Proof.
  change 1 with (inject_Z (10 ^ Z.of_nat 0)). apply ten_pow_mono. lia.
Qed.

Section Prefix.
Variable toString : Q -> string.

Lemma prefixLoop_terminates (fuel : nat) (number radix : Q)
    (prefixed : string) :
  radix <= inject_Z (Z.of_nat fuel) ->
  exists s, prefixLoop toString fuel number radix prefixed = Some s.
Proof.
  revert radix prefixed.
  induction fuel as [|fuel IH]; intros radix prefixed Hr; cbn [prefixLoop].
  - destruct (Qgt_bool radix 1) eqn:E.
    + apply Qlt_bool_iff in E.
      change (inject_Z (Z.of_nat 0)) with 0 in Hr. lra.
    + cbn [andb]. eexists. reflexivity.
  - destruct (Qgt_bool radix 1 && Qlt_bool number radix) eqn:E;
      [|eexists; reflexivity].
    apply andb_true_iff in E. destruct E as [E _]. apply Qlt_bool_iff in E.
    apply IH.
    rewrite Nat2Z.inj_succ in Hr. unfold Z.succ in Hr.
    rewrite inject_Z_plus in Hr.
    destruct fuel as [|fuel].
    + change (inject_Z (Z.of_nat 0)) with 0 in Hr.
      change (inject_Z 1) with 1 in Hr. lra.
    + assert (1 <= inject_Z (Z.of_nat (S fuel))).
      { change 1 with (inject_Z 1). rewrite <- Zle_Qle. lia. }
      unfold Qdiv. change (/ 10) with (1 # 10).
      change (inject_Z 1) with 1 in Hr. lra.
Qed.

(** X22.  The loop of [prefixWithZero] ends, whatever the number and the
    radix: the radix is divided by ten at every turn and the loop stops when
    it is no longer above one. *)
Theorem prefixWithZero_returns (number : Q) (radix : option Q) :
  exists s, prefixWithZero toString number radix = Some s.
Proof.
  unfold prefixWithZero. apply prefixLoop_terminates.
  set (r := match radix with Some r => r | None => 10 end).
  apply Qle_trans with (inject_Z (Qceiling r)); [apply Qle_ceiling|].
  rewrite <- Zle_Qle. lia.
Qed.

Lemma prefixLoop_pads (number : Q) (j : nat) :
  number < inject_Z (10 ^ Z.of_nat (S j)) ->
  (j = 0%nat \/ inject_Z (10 ^ Z.of_nat j) <= number) ->
  forall (k fuel : nat) (radix : Q) (prefixed : string),
    radix == inject_Z (10 ^ Z.of_nat k) -> (k <= fuel)%nat ->
    prefixLoop toString fuel number radix prefixed
    = Some (String.append prefixed
              (String.append (repeatString "0" (k - j)) (toString number))).
Proof.
  intros Hlt Hge.
  induction k as [|k IH]; intros fuel radix prefixed Hr Hf.
  - assert (E : Qgt_bool radix 1 = false).
    { apply Qlt_bool_false_iff. rewrite Hr.
      change (inject_Z (10 ^ Z.of_nat 0)) with 1. lra. }
    destruct fuel; cbn [prefixLoop]; rewrite E; reflexivity.
  - destruct fuel as [|fuel]; [lia|]. cbn [prefixLoop].
    assert (E1 : Qgt_bool radix 1 = true).
    { apply Qlt_bool_iff. rewrite Hr, ten_pow_succ.
      pose proof (ten_pow_pos k). lra. }
    rewrite E1. cbn [andb].
    destruct (Nat.le_gt_cases j k) as [Hjk|Hjk].
    + assert (E2 : Qlt_bool number radix = true).
      { apply Qlt_bool_iff. rewrite Hr.
        apply Qlt_le_trans with (inject_Z (10 ^ Z.of_nat (S j)));
          [exact Hlt | apply ten_pow_mono; lia]. }
      rewrite E2. rewrite (IH fuel (radix / 10)); [| |lia].
      * replace (S k - j)%nat with (S (k - j)) by lia.
        cbn [repeatString]. rewrite !append_assoc. reflexivity.
      * rewrite Hr, ten_pow_succ. unfold Qdiv. change (/ 10) with (1 # 10).
        lra.
    + assert (E2 : Qlt_bool number radix = false).
      { apply Qlt_bool_false_iff. rewrite Hr.
        destruct Hge as [->|Hge]; [lia|].
        apply Qle_trans with (inject_Z (10 ^ Z.of_nat j));
          [apply ten_pow_mono; lia | exact Hge]. }
      rewrite E2. replace (S k - j)%nat with 0%nat by lia. reflexivity.
Qed.

(** X23.  [prefixWithZero] with a power of ten as its radix writes a zero
    for every digit that a number is short of the digits of the radix: a
    number with [j + 1] digits before the point, or below ten for [j = 0],
    gets [k - j] zeros for the radix [10 ^ k], and [1 - j] zeros for the
    radix left out.  The fields of a time stamp come out with two digits and
    its milliseconds with three. *)
Theorem prefixWithZero_pads (number : Q) (j k : nat) :
  number < inject_Z (10 ^ Z.of_nat (S j)) ->
  (j = 0%nat \/ inject_Z (10 ^ Z.of_nat j) <= number) ->
  prefixWithZero toString number (Some (inject_Z (10 ^ Z.of_nat k)))
  = Some (String.append (repeatString "0" (k - j)) (toString number))
  /\ prefixWithZero toString number None
     = Some (String.append (repeatString "0" (1 - j)) (toString number)).
Proof.
  intros Hlt Hge. unfold prefixWithZero. split.
  - rewrite (prefixLoop_pads number j Hlt Hge k); [reflexivity|reflexivity|].
    rewrite Qceiling_Z.
    pose proof (Z.pow_gt_lin_r 10 (Z.of_nat k)). lia.
  - rewrite (prefixLoop_pads number j Hlt Hge 1); [reflexivity|reflexivity|].
    cbn. lia.
Qed.

End Prefix.

(** ** More instances *)

Lemma stop_when_idle_witness :
  idle newWorld
  /\ exists w',
       await (stop source) newWorld = Some w'
       /\ timeouts (handler w') = []
       /\ height w' = height newWorld
       /\ pulses w' = pulses newWorld.
Proof.
  split; [reflexivity|].
  exact (stop_when_idle source newWorld eq_refl).
Defined.

Lemma stop_during_travel_witness :
  exists w',
    requestThenStop source to (Some 3) 2000 newWorld = Some w'
    /\ idle w'
    /\ timeouts (handler w') = []
    /\ doorIsMoving (handler w') = false
    /\ height w' = height newWorld
    /\ steps (history w') = steps (history newWorld) ++ [Pulsed; Pulsed].
Proof.
  apply (stop_during_travel source to (Some 3) 2000 newWorld);
    try reflexivity; vm_compute; try reflexivity; discriminate.
Defined.

Lemma request_restores_timeouts_witness :
  idle halfOpen
  /\ exists w',
       await (handleRequest source down (Some 1)) halfOpen = Some w'
       /\ idle w'
       /\ timeouts (handler w') = [].
Proof.
  split; [reflexivity|].
  exact (request_restores_timeouts source down (Some 1) halfOpen eq_refl).
Defined.

Lemma request_moving_flag_witness :
  idle newWorld
  /\ exists w',
       await (handleRequest source up None) newWorld = Some w'
       /\ doorIsMoving (handler w') = true.
Proof.
  split; [reflexivity|].
  destruct (request_moving_flag source up None newWorld eq_refl)
    as (w' & E & _ & Hlimit).
  exists w'. split; [exact E|].
  apply Hlimit; [reflexivity|]. right. vm_compute. reflexivity.
Defined.

Lemma request_direction_flag_witness :
  idle halfOpen
  /\ exists w',
       await (handleRequest source up (Some 1)) halfOpen = Some w'
       /\ lastDirectionWasUp (handler w') = true.
Proof.
  split; [reflexivity|].
  exact (request_direction_flag source up (Some 1) halfOpen
           eq_refl eq_refl eq_refl).
Defined.

Lemma relative_request_monotone_witness :
  0 <= DOOR_HEIGHT_FEET source /\ idle halfOpen
  /\ inBounds source (height halfOpen) /\ 0 <= 2
  /\ exists w',
       await (handleRequest source up (Some 2)) halfOpen = Some w'
       /\ height halfOpen <= height w'.
Proof.
  split; [exact source_height_nonneg|].
  split; [reflexivity|].
  split; [exact halfOpen_inBounds|].
  split; [vm_compute; discriminate|].
  refine (proj1 (relative_request_monotone source 2 halfOpen
                   source_height_nonneg eq_refl halfOpen_inBounds _)).
  vm_compute. discriminate.
Defined.

Lemma relative_request_stops_at_limit_witness :
  0 <= DOOR_HEIGHT_FEET source /\ idle halfOpen
  /\ exists w',
       await (handleRequest source down (Some 4)) halfOpen = Some w'
       /\ height w' == 0.
Proof.
  split; [exact source_height_nonneg|].
  split; [reflexivity|].
  refine (proj2 (relative_request_stops_at_limit source 4 halfOpen
                   source_height_nonneg eq_refl _) _);
    vm_compute; try reflexivity; discriminate.
Defined.

Lemma closed_door_round_trip_witness :
  0 <= DOOR_HEIGHT_FEET source /\ idle newWorld /\ height newWorld == 0
  /\ exists w',
       handleRequests source [(up, Some 2); (down, Some 2)] newWorld = Some w'
       /\ height w' == 0.
Proof.
  split; [exact source_height_nonneg|].
  split; [reflexivity|].
  split; [reflexivity|].
  refine (closed_door_round_trip source 2 newWorld
            source_height_nonneg eq_refl (Qeq_refl _) _).
  vm_compute. reflexivity.
Defined.

Lemma turnOnLight_leaves_state_witness :
  idle halfOpen
  /\ exists w',
       await (turnOnLight source) halfOpen = Some w'
       /\ handler w' = handler halfOpen
       /\ trace w' = EvPin true :: EvPin false :: trace halfOpen
       /\ pulses w' = S (pulses halfOpen)
       /\ clock w'
          = clock halfOpen
            + timerDelay (OPENER_LIGHT_BUTTON_PRESS_TIME_SEC source * 1000)
       /\ idle w'.
Proof.
  split; [reflexivity|].
  exact (turnOnLight_leaves_state source halfOpen eq_refl).
Defined.

Lemma bounce_back_steps_witness :
  idle ajar /\ trace ajar = []
  /\ exists w',
       await (handleRequest measured down None) ajar = Some w'
       /\ Datatypes.length (steps (history w')) = 6%nat.
Proof.
  split; [reflexivity|]. split; [reflexivity|].
  destruct (bounce_back_steps measured down None ajar eq_refl eq_refl)
    as (w' & E & _ & Hs).
  - vm_compute. discriminate.
  - vm_compute. reflexivity.
  - reflexivity.
  - exists w'. split; [exact E|]. rewrite Hs. reflexivity.
Defined.

Lemma status_after_request_witness :
  0 < DOOR_HEIGHT_FEET source /\ idle halfOpen
  /\ inBounds source (height halfOpen)
  /\ exists w',
       await (handleRequest source up None) halfOpen = Some w'
       /\ getCurrentDoorHeight source (handler w') = [Text "fully open"].
Proof.
  assert (H : 0 < DOOR_HEIGHT_FEET source) by (vm_compute; reflexivity).
  split; [exact H|].
  split; [reflexivity|].
  split; [exact halfOpen_inBounds|].
  exact (proj1 (status_after_request source halfOpen H eq_refl
                  halfOpen_inBounds)).
Defined.

Lemma typed_line_opens_or_closes_witness :
  0 <= DOOR_HEIGHT_FEET source /\ idle halfOpen
  /\ inBounds source (height halfOpen)
  /\ exists w',
       await (onLine source "stop") halfOpen = Some w'
       /\ height w' == 0.
Proof.
  split; [exact source_height_nonneg|].
  split; [reflexivity|].
  split; [exact halfOpen_inBounds|].
  destruct (typed_line_opens_or_closes source "stop" halfOpen
              source_height_nonneg eq_refl halfOpen_inBounds)
    as (w' & E & _ & Hclose).
  exists w'. split; [exact E|]. apply Hclose. discriminate.
Defined.

Lemma App_handleRequest_validates_witness :
  let parseFloat :=
    fun s : string =>
      if String.eqb s "3" then Finite 3
      else if String.eqb s "Infinity" then Infinite false
      else NotANumber in
  parseFloat EmptyString = NotANumber
  /\ App_handleRequest parseFloat "up" (Some "Infinity"%string)
     = PassedOn up (Infinite false)
  /\ forall d, App_handleRequest parseFloat "stop" None <> PassedOn to d.
Proof.
  intros parseFloat. split; [reflexivity|]. split.
  - apply (App_handleRequest_validates parseFloat eq_refl).
    split; [reflexivity|]. right. exists "Infinity"%string.
    repeat split; try reflexivity; discriminate.
  - intros d H.
    apply (App_handleRequest_validates parseFloat eq_refl) in H.
    destruct H as [H _]. discriminate H.
Defined.

Lemma passed_on_request_keeps_direction_witness :
  let parseFloat :=
    fun s : string => if String.eqb s "3" then Finite 3 else NotANumber in
  parseFloat EmptyString = NotANumber
  /\ 0 <= DOOR_HEIGHT_FEET source /\ idle halfOpen
  /\ inBounds source (height halfOpen)
  /\ App_handleRequest parseFloat "down" (Some "3"%string)
     = PassedOn down (Finite 3)
  /\ exists w',
       await (handleRequest source down (Some 3)) halfOpen = Some w'
       /\ height w' <= height halfOpen.
Proof.
  intros parseFloat.
  split; [reflexivity|].
  split; [exact source_height_nonneg|].
  split; [reflexivity|].
  split; [exact halfOpen_inBounds|].
  split; [reflexivity|].
  destruct (passed_on_request_keeps_direction parseFloat eq_refl source
              "down" (Some "3"%string) down (Finite 3) (Some 3) halfOpen
              source_height_nonneg eq_refl halfOpen_inBounds eq_refl eq_refl)
    as (w' & E & _ & Hdown & _).
  exists w'. split; [exact E | exact (Hdown eq_refl)].
Defined.

Lemma getSourceIP_strips_witness :
  String.index 0 "f:" "10.0.0.7" = None
  /\ getSourceIP "10.0.0.7" = "10.0.0.7"%string.
Proof.
  split; [reflexivity|].
  exact (proj1 (proj2 (getSourceIP_strips "10.0.0.7")) eq_refl).
Defined.

Lemma test_suites_pass_witness :
  DOOR_HEIGHT_FEET tested == TEST_DOOR_HEIGHT_FEET
  /\ idle newWorld /\ inBounds tested (height newWorld)
  /\ exists w',
       runTests tested (randomNumberTests [1; 74 # 10] ++ bouncebackTests
                        ++ distanceTests ++ heightTests) newWorld
       = Some (w', repeat true 27).
Proof.
  split; [reflexivity|].
  split; [reflexivity|].
  assert (Hb : inBounds tested (height newWorld))
    by (split; vm_compute; discriminate).
  split; [exact Hb|].
  refine (test_suites_pass tested [1; 74 # 10] newWorld
            (Qeq_refl _) eq_refl Hb _).
  repeat constructor; vm_compute; discriminate.
Defined.

Lemma tests_fail_on_source_witness :
  idle newWorld /\ inBounds source (height newWorld)
  /\ exists w',
       runTests source distanceTests newWorld
       = Some (w', [false; true; true; false; false; false; true; false]).
Proof.
  split; [reflexivity|].
  split; [exact newWorld_inBounds|].
  exact (proj1 (tests_fail_on_source newWorld eq_refl newWorld_inBounds)).
Defined.

Lemma formatClassName_pads_witness :
  formatClassName "App" = Some "App              "%string
  /\ String.length "App              " = 17%nat.
Proof.
  split; [reflexivity|].
  exact (proj1 (proj1 (formatClassName_pads "App") _ eq_refl)).
Defined.

Lemma prefixWithZero_pads_witness :
  let toString := fun _ : Q => "7"%string in
  7 < inject_Z (10 ^ Z.of_nat 1)
  /\ prefixWithZero toString 7 (Some (inject_Z (10 ^ Z.of_nat 2)))
     = Some "007"%string
  /\ prefixWithZero toString 7 None = Some "07"%string.
Proof.
  intros toString.
  assert (H : 7 < inject_Z (10 ^ Z.of_nat 1)) by (vm_compute; reflexivity).
  split; [exact H|].
  exact (prefixWithZero_pads toString 7 0 2 H (or_introl eq_refl)).
Defined.
